(** * pa3.c: a two-level page table with a TLB and copy-on-write fork

    Shallow embedding of the six entry points of [src/pa3.c]
    ([lookup_tlb], [insert_tlb], [alloc_page], [free_page],
    [handle_page_fault], [switch_process]) and the properties of the
    design document that concern them.

    Conventions.
    - [unsigned int] values are numbers of type [N]; the places where the
      C code relies on wrap-around ([x++], [x--], [-1]) are written out
      with [u32_inc], [u32_dec] and [UINT_MAX].
    - C arrays are lists read with [!!] and written with [<[i:=x]>].
      A read or write outside an array, and the dereference of a dangling
      pointer, have no defined result in C: the operations return [None]
      there.  [Some] carries the state after the call (and the C return
      value, when there is one).
    - [malloc] does not initialise the block it returns.  Where the code
      reads a malloc'ed block before writing it, the operation takes the
      contents of that block as an extra argument. *)

From stdpp Require Import base numbers option list relations.

Open Scope N_scope.

(** ** Machine integers *)

Definition UINT_MAX : N := 4294967295.

(** [x++] on an [unsigned int]. *)
Definition u32_inc (x : N) : N := (x + 1) mod 4294967296.

(** [x--] on an [unsigned int]. *)
Definition u32_dec (x : N) : N := (x + UINT_MAX) mod 4294967296.

(** ** Constants of vm.h *)

(** Modelled from the spec: vm.h is not among the sources.  The design
    document names the permissions none/read/write/read-write;
    [lookup_tlb] spells the write request as the literal [2] and
    read-write as [3], and [handle_page_fault] writes read-write as
    [ACCESS_WRITE+ACCESS_READ], which fixes read as [1]. *)
Definition ACCESS_READ : N := 1.

(** Modelled from the spec: see [ACCESS_READ]. *)
Definition ACCESS_WRITE : N := 2.

(** ** Data model *)

(** [struct pte]. *)
Record pte := mk_pte {
  pte_valid : bool;
  pte_rw : N;
  pte_pfn : N;
  pte_private : N
}.

(** [struct pte_directory]: the array [ptes]. *)
Abbreviation pte_directory := (list pte).

(** [struct pagetable]: the array [outer_ptes] of pointers to directories,
    [None] for the null pointer.  A directory is pointed to by exactly one
    outer slot (each is the result of its own [malloc]), so it is stored
    in the slot. *)
Record pagetable := mk_pagetable {
  outer_ptes : list (option pte_directory)
}.

(** [struct tlb_entry]. *)
Record tlb_entry := mk_tlb {
  tlb_valid : bool;
  tlb_rw : N;
  tlb_vpn : N;
  tlb_pfn : N
}.

(** [struct process].  Its [list] member holds the links of the ready
    queue: for a process of the queue they are what [list_add_tail]
    wrote, and the position of the process in [processes] stands for
    them; for a process that is not in the queue they are not links of
    the queue (see [list_del_entry]). *)
Record process := mk_process {
  pid : N;
  proc_pagetable : pagetable
}.

(** The globals of pa3.c.  Processes live in [heap], at the index that
    stands for their address; [current] is such an address, [processes]
    is the ready queue as the sequence of the addresses linked in it, and
    [ptbr], which always points to the [pagetable] member of a process,
    is the address of that process. *)
Record state := mk_state {
  heap : list process;
  processes : list nat;
  current : nat;
  ptbr : nat;
  tlb : list tlb_entry;
  mapcounts : list N
}.

(** ** Loops that stop at the first match *)

(** [for (i = 0; i < n; i++) if (p a[i]) return i;] over a whole array. *)
Fixpoint find_index {A} (p : A → bool) (l : list A) : option nat :=
  match l with
  | [] => None
  | x :: l' => if p x then Some 0%nat else S <$> find_index p l'
  end.

(** ** The TLB *)

(** The condition of line 69. *)
Definition tlb_hit (vpn rw : N) (e : tlb_entry) : bool :=
  tlb_valid e && (tlb_vpn e =? vpn)
    && (tlb_rw e =? (if rw =? 2 then 3 else rw)).

(** The condition of lines 92 and 183. *)
Definition tlb_has (vpn : N) (e : tlb_entry) : bool :=
  (tlb_vpn e =? vpn) && tlb_valid e.

(** What lines 184-187 and 266-269 leave in a TLB entry. *)
Definition tlb_cleared : tlb_entry := mk_tlb false UINT_MAX UINT_MAX UINT_MAX.

(** [lookup_tlb]: [Some pfn] when the C function returns true with [*pfn]
    set, [None] when it returns false.  The array [tlb] is declared with
    the bound of the loop as its size, so the loop visits all of it. *)
Definition lookup_tlb (s : state) (vpn rw : N) : option N :=
  i ← find_index (tlb_hit vpn rw) (tlb s);
  tlb_pfn <$> tlb s !! i.

Definition set_tlb (s : state) (t : list tlb_entry) : state :=
  mk_state (heap s) (processes s) (current s) (ptbr s) t (mapcounts s).

(** [insert_tlb]. *)
Definition insert_tlb (s : state) (vpn rw pfn : N) : state :=
  match find_index (tlb_has vpn) (tlb s) with
  | Some i =>
      match tlb s !! i with
      | Some e => set_tlb s (<[i := mk_tlb (tlb_valid e) rw (tlb_vpn e) pfn]> (tlb s))
      | None => s
      end
  | None =>
      match find_index (λ e, negb (tlb_valid e)) (tlb s) with
      | Some i => set_tlb s (<[i := mk_tlb true rw vpn pfn]> (tlb s))
      | None => s
      end
  end.

(** ** States used as instances

    All of them have two entries per directory and two outer slots. *)

(** A directory with no valid entry. *)
Definition zero_directory : list pte := [mk_pte false 0 0 0; mk_pte false 0 0 0].

(** A state to start from: one process, with pid 0 and an empty page
    table, no mapping, nothing cached. *)
Definition boot_state : state :=
  mk_state [mk_process 0 (mk_pagetable [None; None])] [] 0 0
           [mk_tlb false 0 0 0; mk_tlb false 0 0 0; mk_tlb false 0 0 0; mk_tlb false 0 0 0]
           [0; 0; 0].

(** Process 0 is current and process 1 is ready; both map their page 0,
    read-only with a read-write ceiling, to frame 0. *)
Definition shared_state : state :=
  mk_state
    [mk_process 0 (mk_pagetable [Some [mk_pte true 1 0 3; mk_pte false 0 0 0]; None]);
     mk_process 1 (mk_pagetable [Some [mk_pte true 1 0 3; mk_pte false 0 0 0]; None])]
    [1%nat] 0 0 [tlb_cleared] [2; 0; 0].

(** One process; its page 0 is mapped read-only with a read-write ceiling
    to frame 0, which has one mapping. *)
Definition sole_owner_state : state :=
  mk_state
    [mk_process 0 (mk_pagetable [Some [mk_pte true 1 0 3; mk_pte false 0 0 0]; None])]
    [] 0 0 [tlb_cleared] [1; 0; 0].

(** One process; its page 0 is mapped read-write to frame 0: the state
    after [alloc_page(0, 3)] from [boot_state], but for the TLB. *)
Definition writable_state : state :=
  mk_state
    [mk_process 0 (mk_pagetable [Some [mk_pte true 3 0 3; mk_pte false 0 0 0]; None])]
    [] 0 0 [tlb_cleared] [1; 0; 0].

(** [sole_owner_state] with the translations of pages 0 and 1 cached and
    no slot of the TLB left. *)
Definition cached_state : state :=
  mk_state
    [mk_process 0 (mk_pagetable [Some [mk_pte true 1 0 3; mk_pte false 0 0 0]; None])]
    [] 0 0 [mk_tlb true 1 0 0; mk_tlb true 1 1 2] [1; 0; 0].

(** Proves [sched_ok] of a state given in full, with the ready queue and
    the heap as explicit lists. *)
Ltac solve_sched_ok :=
  split; [reflexivity|]; split;
  [ repeat (apply NoDup_cons; split;
            [ let H := fresh in
              intros H; repeat (apply elem_of_cons in H as [H|H]; [discriminate H|]);
              by apply elem_of_nil in H |]);
    apply NoDup_nil_2
  | split;
    [ let H := fresh in
      intros ? H; repeat (apply elem_of_cons in H as [->|H]; [by eexists|]);
      by apply elem_of_nil in H
    | let Ha := fresh in let Hb := fresh in
      intros ? ? ? ? Ha Hb;
      repeat (apply elem_of_cons in Ha as [->|Ha]);
      try (by apply elem_of_nil in Ha);
      repeat (apply elem_of_cons in Hb as [->|Hb]);
      try (by apply elem_of_nil in Hb);
      simpl; intros; simplify_eq; done ] ].

(** ** Page tables

    The sizes [NR_PTES_PER_PAGE] and [NR_PAGEFRAMES] come from vm.h, which
    is not among the sources: they are parameters of the development. *)

Section VM.
Variable NR_PTES_PER_PAGE : nat.
Variable NR_PAGEFRAMES : nat.

(** [vpn/NR_PTES_PER_PAGE] *)
Definition outer_pte_index (vpn : N) : nat :=
  N.to_nat (vpn / N.of_nat NR_PTES_PER_PAGE).

(** [vpn%NR_PTES_PER_PAGE] *)
Definition pte_index (vpn : N) : nat :=
  N.to_nat (vpn mod N.of_nat NR_PTES_PER_PAGE).

(** The entry for [vpn] in the page table of a process, when its
    directory is there. *)
Definition pte_of (p : process) (vpn : N) : option pte :=
  d ← mjoin (outer_ptes (proc_pagetable p) !! outer_pte_index vpn);
  d !! pte_index vpn.

(** The entry for [vpn] in the page table [ptbr] points to. *)
Definition read_pte (s : state) (vpn : N) : option pte :=
  p ← heap s !! ptbr s;
  pte_of p vpn.

(** The state after [ptbr->outer_ptes[i]->ptes[j] = e], where [d] is the
    directory [ptbr->outer_ptes[i]] points to, and after [mapcounts]
    has become [mc]. *)
Definition write_pte (s : state) (p : process) (i : nat) (d : pte_directory)
    (j : nat) (e : pte) (mc : list N) (t : list tlb_entry) : state :=
  let outer := <[i := Some (<[j := e]> d)]> (outer_ptes (proc_pagetable p)) in
  mk_state (<[ptbr s := mk_process (pid p) (mk_pagetable outer)]> (heap s))
           (processes s) (current s) (ptbr s) t mc.

(** The first frame of [mapcounts[0..NR_PAGEFRAMES-1]] with no mapping:
    the loops of lines 134 and 230. *)
Definition first_free_frame (mc : list N) : option nat :=
  find_index (λ c, c =? 0) (take NR_PAGEFRAMES mc).

(** [alloc_page]; [fresh] is the block [malloc] returns at line 138.
    [NR_PAGEFRAMES] is an [int] constant, so the frame number [i] is the
    same number as an [int] and as an [unsigned int]; [return -1] is
    [UINT_MAX] at the return type. *)
Definition alloc_page (fresh : pte_directory) (s : state) (vpn rw : N)
    : option (state * N) :=
  p ← heap s !! ptbr s;
  cur_outer_pte ← outer_ptes (proc_pagetable p) !! outer_pte_index vpn;
  match first_free_frame (mapcounts s) with
  | Some i =>
      let d := default fresh cur_outer_pte in
      _ ← d !! pte_index vpn;
      c ← mapcounts s !! i;
      Some (write_pte s p (outer_pte_index vpn) d (pte_index vpn)
              (mk_pte true rw (N.of_nat i) rw)
              (<[i := u32_inc c]> (mapcounts s)) (tlb s),
            N.of_nat i)
  | None => Some (s, UINT_MAX)
  end.

(** [free_page].  [cur_pte] is the address of a member of the directory,
    so [!cur_pte] holds only together with [!cur_outer_pte]: the test of
    line 171 is the test for a missing directory. *)
Definition free_page (s : state) (vpn : N) : option state :=
  p ← heap s !! ptbr s;
  cur_outer_pte ← outer_ptes (proc_pagetable p) !! outer_pte_index vpn;
  match cur_outer_pte with
  | None => Some s
  | Some d =>
      cur_pte ← d !! pte_index vpn;
      let pfn := N.to_nat (pte_pfn cur_pte) in
      c ← mapcounts s !! pfn;
      Some (write_pte s p (outer_pte_index vpn) d (pte_index vpn)
              (mk_pte false 0 0 0)
              (<[pfn := u32_dec c]> (mapcounts s))
              (map (λ e, if tlb_has vpn e then tlb_cleared else e) (tlb s)))
  end.

(** [handle_page_fault], with the state after the call. *)
Definition handle_page_fault (s : state) (vpn rw : N) : option (state * bool) :=
  p ← heap s !! ptbr s;
  cur_outer_pte ← outer_ptes (proc_pagetable p) !! outer_pte_index vpn;
  match cur_outer_pte with
  | None => Some (s, false)
  | Some d =>
      cur_pte ← d !! pte_index vpn;
      if pte_valid cur_pte && (rw =? ACCESS_WRITE)
         && (pte_private cur_pte =? ACCESS_WRITE + ACCESS_READ)
         && (pte_rw cur_pte =? ACCESS_READ)
      then
        let old := N.to_nat (pte_pfn cur_pte) in
        c ← mapcounts s !! old;
        if c =? 1 then
          Some (write_pte s p (outer_pte_index vpn) d (pte_index vpn)
                  (mk_pte (pte_valid cur_pte) (ACCESS_READ + ACCESS_WRITE)
                          (pte_pfn cur_pte) (pte_private cur_pte))
                  (mapcounts s) (tlb s),
                true)
        else
          match first_free_frame (mapcounts s) with
          | Some i =>
              let mc := <[old := u32_dec c]> (mapcounts s) in
              c' ← mc !! i;
              Some (write_pte s p (outer_pte_index vpn) d (pte_index vpn)
                      (mk_pte (pte_valid cur_pte) (ACCESS_READ + ACCESS_WRITE)
                              (N.of_nat i) (pte_private cur_pte))
                      (<[i := u32_inc c']> mc) (tlb s),
                    true)
          | None => Some (s, false)
          end
      else Some (s, false)
  end.

(** ** The ready queue *)

(** Modelled from the spec: list_head.h is not among the sources.  The
    ready queue is the ordered sequence of the processes linked in it;
    [list_add_tail] links an entry at the end. *)
Definition list_add_tail (a : nat) (q : list nat) : list nat := q ++ [a].

(** Modelled from the spec: list_head.h is not among the sources.
    The sequence after [list_del] has taken the entry out. *)
Fixpoint list_del (a : nat) (q : list nat) : list nat :=
  match q with
  | [] => []
  | b :: q' => if (b =? a)%nat then list_del a q' else b :: list_del a q'
  end.

(** [list_del(&entry->list)] as line 282 calls it.  The call is given
    the entry alone and works on the links in its [list] member.  For an
    entry of the ready queue these are the links [list_add_tail] wrote,
    and the entry is taken out.  For an entry that is not in the queue
    they were never written (the child of a fork: lines 285-305 write
    [pid] and [pagetable] of the malloc'ed block and nothing else) or
    were left behind by an earlier [list_del]: the call reads links that
    do not link the entry into the queue, and nothing defines what it
    does. *)
Definition list_del_entry (a : nat) (q : list nat) : option (list nat) :=
  if existsb (λ b, (b =? a)%nat) q then Some (list_del a q) else None.

(** Modelled from the spec: list_head.h is not among the sources.
    [list_for_each_entry] visits the entries in the order of the
    sequence; this is the loop of lines 273-280 up to its [break]:
    the first process of the queue with the given pid. *)
Fixpoint find_pid (h : list process) (q : list nat) (pid' : N)
    : option (option nat) :=
  match q with
  | [] => Some None
  | a :: q' =>
      proc ← h !! a;
      if pid proc =? pid' then Some (Some a) else find_pid h q' pid'
  end.

(** [for (i = 0; i < n; i++) body], where the body may be undefined. *)
Definition for_loop {St} (n : nat) (body : nat → St → option St) (s : St)
    : option St :=
  foldl (λ acc i, acc ≫= body i) (Some s) (seq 0 n).

(** Lines 292-295. *)
Definition cow_downgrade (e : pte) : pte :=
  if pte_rw e =? ACCESS_READ + ACCESS_WRITE
  then mk_pte (pte_valid e) ACCESS_READ (pte_pfn e) (pte_private e)
  else e.

(** The body of the loop of line 291, on the parent's directory, the
    entries of the child's directory written so far, and [mapcounts].
    The loop writes every entry of the child's new directory, in order. *)
Definition fork_pte (j : nat) (st : pte_directory * pte_directory * list N)
    : option (pte_directory * pte_directory * list N) :=
  let '(d, cd, mc) := st in
  e ← d !! j;
  let e' := cow_downgrade e in
  if pte_valid e' then
    c ← mc !! N.to_nat (pte_pfn e');
    Some (<[j := e']> d, cd ++ [e'], <[N.to_nat (pte_pfn e') := u32_inc c]> mc)
  else Some (<[j := e']> d, cd ++ [e'], mc).

(** The body of the loop of line 287, on the parent's outer table, the
    slots of the child's outer table settled so far, and [mapcounts].
    [junk i] is what the malloc'ed [struct process] of the child holds
    in [outer_ptes[i]], which stays there when the parent has no
    directory at [i]. *)
Definition fork_directory (junk : nat → option pte_directory) (i : nat)
    (st : list (option pte_directory) * list (option pte_directory) * list N)
    : option (list (option pte_directory) * list (option pte_directory) * list N) :=
  let '(outer, couter, mc) := st in
  slot ← outer !! i;
  match slot with
  | None => Some (outer, couter ++ [junk i], mc)
  | Some d =>
      '(d', cd, mc') ← for_loop NR_PTES_PER_PAGE fork_pte (d, [], mc);
      Some (<[i := Some d']> outer, couter ++ [Some cd], mc')
  end.

(** [switch_process]; the child of a fork is allocated at the end of
    the heap.  Line 282 is reached with [current] the process found in
    the queue, or with the process that was running already, whose pid
    was asked for. *)
Definition switch_process (junk : nat → option pte_directory) (s : state)
    (pid' : N) : option state :=
  let t := map (λ _, tlb_cleared) (tlb s) in
  found ← find_pid (heap s) (processes s) pid';
  let '(q, cur, pt) :=
    match found with
    | Some proc => (list_add_tail (current s) (processes s), proc, proc)
    | None => (processes s, current s, ptbr s)
    end in
  c ← heap s !! cur;
  if pid c =? pid' then
    q' ← list_del_entry cur q;
    Some (mk_state (heap s) q' cur pt t (mapcounts s))
  else
    parent ← heap s !! pt;
    '(outer, couter, mc) ←
      for_loop NR_PTES_PER_PAGE (fork_directory junk)
               (outer_ptes (proc_pagetable parent), [], mapcounts s);
    let child := length (heap s) in
    Some (mk_state
            (<[pt := mk_process (pid parent) (mk_pagetable outer)]> (heap s)
               ++ [mk_process pid' (mk_pagetable couter)])
            (list_add_tail cur q) child child t mc).

(** ** The reference-count invariant *)

(** The entry is a valid mapping of frame [f]. *)
Definition maps_frame (f : N) (e : pte) : bool :=
  pte_valid e && (pte_pfn e =? f).

Definition count_directory (f : N) (d : pte_directory) : nat :=
  length (List.filter (maps_frame f) d).

Definition count_pagetable (f : N) (pt : pagetable) : nat :=
  sum_list_with (from_option (count_directory f) 0%nat) (outer_ptes pt).

(** The number of valid PTEs, over the page tables of all processes,
    whose [pfn] is [f]. *)
Definition count_mappings (f : N) (s : state) : nat :=
  sum_list_with (λ p, count_pagetable f (proc_pagetable p)) (heap s).

(** [mapcounts[f]] is that number, for every frame. *)
Definition refcount_ok (s : state) : bool :=
  forallb (λ i, bool_decide
                  (mapcounts s !! i = Some (N.of_nat (count_mappings (N.of_nat i) s))))
          (seq 0 NR_PAGEFRAMES).

(** ** Vocabulary of the statements *)

(** The first valid entry of the TLB for [vpn] that carries exactly the
    permission [r] holds [pfn]. *)
Definition cached (t : list tlb_entry) (vpn r pfn : N) : Prop :=
  ∃ i e, t !! i = Some e ∧
    tlb_valid e = true ∧ tlb_vpn e = vpn ∧ tlb_rw e = r ∧ tlb_pfn e = pfn ∧
    ∀ j e', (j < i)%nat → t !! j = Some e' →
      ¬ (tlb_valid e' = true ∧ tlb_vpn e' = vpn ∧ tlb_rw e' = r).

(** The TLB has room for [vpn]: a slot that is not valid, or a valid
    entry for [vpn]. *)
Definition has_room (t : list tlb_entry) (vpn : N) : Prop :=
  (∃ e, e ∈ t ∧ tlb_valid e = false) ∨
  (∃ e, e ∈ t ∧ tlb_valid e = true ∧ tlb_vpn e = vpn).

(** [i] is the lowest-numbered frame without a mapping. *)
Definition lowest_free (mc : list N) (i : nat) : Prop :=
  (i < NR_PAGEFRAMES)%nat ∧ mc !! i = Some 0 ∧
  ∀ j, (j < i)%nat → mc !! j ≠ Some 0.

(** Some frame is without a mapping. *)
Definition some_free (mc : list N) : Prop :=
  ∃ i, (i < NR_PAGEFRAMES)%nat ∧ mc !! i = Some 0.

(** From [s] to [s'] nothing has changed but [mapcounts] and the entry
    for [vpn] in the page table [ptbr] points to: the queue, [current],
    [ptbr] and the TLB are the same, every other process is the same,
    and the process of [ptbr] has its pid and all its other entries. *)
Definition unchanged_but (s s' : state) (vpn : N) : Prop :=
  processes s' = processes s ∧ current s' = current s ∧
  ptbr s' = ptbr s ∧ tlb s' = tlb s ∧
  (∀ a, a ≠ ptbr s → heap s' !! a = heap s !! a) ∧
  (∀ p, heap s !! ptbr s = Some p →
     ∃ p', heap s' !! ptbr s = Some p' ∧ pid p' = pid p ∧
           ∀ vpn', vpn' ≠ vpn → pte_of p' vpn' = pte_of p vpn').

(** What holds of the scheduler state between calls: [ptbr] points to
    the page table of [current]; [current] is not in the ready queue,
    no process is in it twice, all of them are allocated, and no two of
    them have the same pid. *)
Definition sched_ok (s : state) : Prop :=
  ptbr s = current s ∧
  NoDup (current s :: processes s) ∧
  (∀ a, a ∈ current s :: processes s → is_Some (heap s !! a)) ∧
  (∀ a b p q, a ∈ current s :: processes s → b ∈ current s :: processes s →
     heap s !! a = Some p → heap s !! b = Some q → pid p = pid q → a = b).

(** [k] times [c++]. *)
Definition u32_add (c : N) (k : nat) : N := Nat.iter k u32_inc c.

(** The arrays of the page table have their declared sizes. *)
Definition pagetable_ok (pt : pagetable) : bool :=
  (length (outer_ptes pt) =? NR_PTES_PER_PAGE)%nat
  && forallb (λ o, match o with
                   | Some d => (length d =? NR_PTES_PER_PAGE)%nat
                   | None => true
                   end) (outer_ptes pt).

(** Every valid entry of the page table maps a frame that [mapcounts]
    has a counter for. *)
Definition frames_in_range (mc : list N) (pt : pagetable) : bool :=
  forallb (λ o, match o with
                | Some d => forallb (λ e, negb (pte_valid e)
                                         || (N.to_nat (pte_pfn e) <? length mc)%nat) d
                | None => true
                end) (outer_ptes pt).

(** The slot of the child's outer table for the slot [o] at index [i]
    of the parent: a copy of the directory after lines 292-295, or what
    the block of the child held. *)
Definition child_slot (junk : nat → option pte_directory) (i : nat)
    (o : option pte_directory) : option pte_directory :=
  match o with
  | Some d => Some (map cow_downgrade d)
  | None => junk i
  end.

(** One call of an entry point that changes the state. *)
Inductive step (s s' : state) : Prop :=
  | step_insert_tlb vpn rw pfn :
      s' = insert_tlb s vpn rw pfn → step s s'
  | step_alloc_page fresh vpn rw r :
      alloc_page fresh s vpn rw = Some (s', r) → step s s'
  | step_free_page vpn :
      free_page s vpn = Some s' → step s s'
  | step_handle_page_fault vpn rw r :
      handle_page_fault s vpn rw = Some (s', r) → step s s'
  | step_switch_process junk pid' :
      switch_process junk s pid' = Some s' → step s s'.

(** The number of valid entries of the TLB for [vpn]. *)
Definition tlb_count (vpn : N) (t : list tlb_entry) : nat :=
  sum_list_with (λ e, if tlb_has vpn e then 1%nat else 0%nat) t.

(** From [s] to [s'] the scheduler state is the same and no page-table
    entry has changed but the one for [vpn] in the page table [ptbr]
    points to ([mapcounts] and the TLB are left open). *)
Definition same_pages_but (s s' : state) (vpn : N) : Prop :=
  processes s' = processes s ∧ current s' = current s ∧ ptbr s' = ptbr s ∧
  (∀ a, a ≠ ptbr s → heap s' !! a = heap s !! a) ∧
  (∀ p, heap s !! ptbr s = Some p →
     ∃ p', heap s' !! ptbr s = Some p' ∧ pid p' = pid p ∧
           ∀ vpn', vpn' ≠ vpn → pte_of p' vpn' = pte_of p vpn').

(** Every counter holds an [unsigned int]. *)
Definition counts_in_range (mc : list N) : bool :=
  forallb (λ c, c <=? UINT_MAX) mc.

(** No entry of the directory is valid. *)
Definition no_valid_entry (d : list pte) : bool :=
  forallb (λ e, negb (pte_valid e)) d.

(** 1 when the entry is a valid mapping of frame [f], else 0. *)
Definition mapping (f : N) (e : pte) : nat :=
  if maps_frame f e then 1%nat else 0%nat.

(** For every frame, the mappings there are and the mappings of the page
    table [pt] together fit in an [unsigned int]. *)
Definition fork_counts_fit (s : state) (pt : pagetable) : bool :=
  forallb (λ i, N.of_nat (count_mappings (N.of_nat i) s
                          + count_pagetable (N.of_nat i) pt) <=? UINT_MAX)
          (seq 0 NR_PAGEFRAMES).

(** ** Facts about [find_index] *)

Section find_index.
Context {A : Type} (p : A → bool).

Lemma find_index_Some l i :
find_index p l = Some i ↔
(∃ x, l !! i = Some x ∧ p x = true) ∧
(∀ j y, (j < i)%nat → l !! j = Some y → p y = false).
Proof.
revert i. induction l as [|a l IH]; intros i; simpl.
- split; [done | intros [(x & Hx & _) _]; done].
- destruct (p a) eqn:Hpa.
+ split.
  * intros [= <-]. split; [by exists a | intros j y Hj; lia].
  * intros [(x & Hx & Hpx) Hlt]. destruct i as [|i]; [done|].
    specialize (Hlt 0%nat a). simpl in Hlt.
    rewrite Hlt in Hpa; [done | lia | done].
+ rewrite fmap_Some. split.
  * intros (k & Hk & ->). apply IH in Hk as [Hex Hlt].
    split; [done|]. intros [|j] y Hj; simpl.
    -- by intros [= <-].
    -- apply Hlt. lia.
  * intros [(x & Hx & Hpx) Hlt]. destruct i as [|i].
    { simpl in Hx. injection Hx as <-. congruence. }
    exists i. split; [|done]. apply IH. split; [by exists x|].
    intros j y Hj Hy. apply (Hlt (S j)); [lia | done].
Qed.

Lemma find_index_None l :
find_index p l = None ↔ ∀ x, x ∈ l → p x = false.
Proof.
induction l as [|a l IH]; simpl.
- split; [intros _ x Hx; by apply elem_of_nil in Hx | done].
- destruct (p a) eqn:Hpa.
+ split; [done|]. intros H. rewrite H in Hpa; [done | left].
+ rewrite fmap_None, IH. split.
  * intros H x Hx. apply elem_of_cons in Hx as [->|Hx]; [done|]. by apply H.
  * intros H x Hx. apply H. by right.
Qed.

Lemma find_index_lt l i : find_index p l = Some i → (i < length l)%nat.
Proof.
intros [(x & Hx & _) _]%find_index_Some. by eapply lookup_lt_Some.
Qed.
End find_index.

(** ** The TLB *)

Lemma tlb_hit_true vpn rw e :
  tlb_hit vpn rw e = true ↔
  tlb_valid e = true ∧ tlb_vpn e = vpn ∧ tlb_rw e = (if rw =? 2 then 3 else rw).
Proof.
  unfold tlb_hit. rewrite !andb_true_iff, !N.eqb_eq. tauto.
Qed.

Lemma tlb_has_true vpn e :
  tlb_has vpn e = true ↔ tlb_valid e = true ∧ tlb_vpn e = vpn.
Proof. unfold tlb_has. rewrite andb_true_iff, N.eqb_eq. tauto. Qed.

Lemma tlb_has_false_hit vpn rw e : tlb_has vpn e = false → tlb_hit vpn rw e = false.
Proof.
  intros H. apply not_true_is_false. rewrite tlb_hit_true.
  intros (? & ? & _). rewrite (proj2 (tlb_has_true vpn e)) in H; done.
Qed.

Lemma lookup_tlb_cached s vpn rw pfn :
  lookup_tlb s vpn rw = Some pfn ↔
  cached (tlb s) vpn (if rw =? 2 then 3 else rw) pfn.
Proof.
  unfold lookup_tlb, cached. split.
  - intros (i & Hi & He)%bind_Some. apply fmap_Some in He as (e & He & ->).
    apply find_index_Some in Hi as [(x & Hx & Hp) Hlt].
    assert (x = e) as -> by congruence.
    apply tlb_hit_true in Hp as (? & ? & ?).
    exists i, e. repeat split; try done.
    intros j e' Hj He' Hhit%tlb_hit_true.
    rewrite (Hlt j e' Hj He') in Hhit. done.
  - intros (i & e & He & Hv & Hvpn & Hrw & Hpfn & Hlt).
    assert (find_index (tlb_hit vpn rw) (tlb s) = Some i) as ->.
    { apply find_index_Some. split.
      - exists e. split; [done|]. by apply tlb_hit_true.
      - intros j y Hj Hy. apply not_true_is_false.
        intros Hhit%tlb_hit_true. by apply (Hlt j y Hj Hy). }
    simpl. rewrite He. simpl. by rewrite Hpfn.
Qed.

(** C8 (as the code has it): a probe matches on the exact cached
    permission.  A read probe hits exactly when a valid entry for the vpn
    is cached with permission read, and a write probe exactly when one is
    cached with permission read-write; the pfn returned is that of the
    first such entry.  So a write probe hits only an entry whose cached
    permission covers write, and a cached read-write entry does not
    satisfy a read probe. *)
Theorem lookup_tlb_exact_permission s vpn pfn :
  (lookup_tlb s vpn ACCESS_READ = Some pfn ↔
     cached (tlb s) vpn ACCESS_READ pfn) ∧
  (lookup_tlb s vpn ACCESS_WRITE = Some pfn ↔
     cached (tlb s) vpn (ACCESS_READ + ACCESS_WRITE) pfn) ∧
  (lookup_tlb s vpn ACCESS_WRITE = Some pfn →
     ∃ e, e ∈ tlb s ∧ tlb_valid e = true ∧ tlb_vpn e = vpn ∧
          N.land (tlb_rw e) ACCESS_WRITE = ACCESS_WRITE ∧ tlb_pfn e = pfn).
Proof.
  split; [apply lookup_tlb_cached|]. split; [apply lookup_tlb_cached|].
  intros (i & e & He & Hv & Hvpn & Hrw & Hpfn & _)%lookup_tlb_cached.
  exists e. split; [apply list_elem_of_lookup; by exists i|].
  simpl in Hrw. by rewrite Hrw.
Qed.

(** C8 as stated fails: the only entry is a valid read-write entry for
    vpn 5, and a read probe for vpn 5 misses. *)
Lemma read_probe_misses_read_write_entry :
  ¬ (∀ s vpn,
       (∃ e, e ∈ tlb s ∧ tlb_valid e = true ∧ tlb_vpn e = vpn) →
       is_Some (lookup_tlb s vpn ACCESS_READ)).
Proof.
  intros H.
  destruct (H (mk_state [] [] 0 0 [mk_tlb true 3 5 7] []) 5) as [pfn Hpfn].
  - exists (mk_tlb true 3 5 7). split; [left | done].
  - vm_compute in Hpfn. discriminate.
Qed.

Lemma tlb_hit_inserted vpn rw pfn :
  rw ≠ ACCESS_WRITE → tlb_hit vpn rw (mk_tlb true rw vpn pfn) = true.
Proof.
  intros Hrw. apply tlb_hit_true. simpl.
  by rewrite (proj2 (N.eqb_neq rw 2) Hrw).
Qed.

(** X18: for every TLB with an invalid slot or a valid entry for the
    vpn, every pfn and every access other than write (read, and
    read-write as the page table holds it), a lookup with that access
    right after [insert_tlb] hits with that pfn. *)
Theorem insert_tlb_lookup_tlb s vpn rw pfn :
  rw ≠ ACCESS_WRITE →
  has_room (tlb s) vpn →
  lookup_tlb (insert_tlb s vpn rw pfn) vpn rw = Some pfn.
Proof.
  intros Hrw Hroom. unfold lookup_tlb, insert_tlb.
  destruct (find_index (tlb_has vpn) (tlb s)) as [i|] eqn:Hfind.
  - pose proof (find_index_lt _ _ _ Hfind) as Hlen.
    apply find_index_Some in Hfind as [(e & He & Hp) Hlt].
    apply tlb_has_true in Hp as [Hv Hvpn].
    rewrite He. simpl.
    assert (find_index (tlb_hit vpn rw)
              (<[i := mk_tlb (tlb_valid e) rw (tlb_vpn e) pfn]> (tlb s)) = Some i)
      as ->.
    { apply find_index_Some. split.
      - eexists. split; [by apply list_lookup_insert_eq|].
        rewrite Hv, Hvpn. by apply tlb_hit_inserted.
      - intros j y Hj Hy. rewrite list_lookup_insert_ne in Hy by lia.
        eapply tlb_has_false_hit, Hlt; done. }
    simpl. by rewrite list_lookup_insert_eq.
  - assert (∀ x, x ∈ tlb s → tlb_has vpn x = false) as Hnone
      by by apply find_index_None.
    destruct (find_index (λ e, negb (tlb_valid e)) (tlb s)) as [i|] eqn:Hfree.
    + pose proof (find_index_lt _ _ _ Hfree) as Hlen.
      apply find_index_Some in Hfree as [_ Hlt]. simpl.
      assert (find_index (tlb_hit vpn rw)
                (<[i := mk_tlb true rw vpn pfn]> (tlb s)) = Some i) as ->.
      { apply find_index_Some. split.
        - eexists. split; [by apply list_lookup_insert_eq|].
          by apply tlb_hit_inserted.
        - intros j y Hj Hy. rewrite list_lookup_insert_ne in Hy by lia.
          apply tlb_has_false_hit, Hnone.
          apply list_elem_of_lookup. by exists j. }
      simpl. by rewrite list_lookup_insert_eq.
    + exfalso. destruct Hroom as [(e & He & Hv) | (e & He & Hv & Hvpn)].
      * assert (negb (tlb_valid e) = false) as Hn
          by (eapply find_index_None in Hfree; done).
        by rewrite Hv in Hn.
      * specialize (Hnone e He).
        rewrite (proj2 (tlb_has_true vpn e)) in Hnone; done.
Qed.

(** ** Frames and page-table entries *)

Lemma first_free_frame_Some mc i :
  first_free_frame mc = Some i ↔ lowest_free mc i.
Proof.
  unfold first_free_frame, lowest_free. rewrite find_index_Some. split.
  - intros [(c & Hc & Hz) Hlt].
    apply lookup_take_Some in Hc as [Hc Hi]. apply N.eqb_eq in Hz as ->.
    repeat split; [done..|]. intros j Hj Hmc.
    specialize (Hlt j 0 Hj). rewrite lookup_take_lt in Hlt by lia.
    by specialize (Hlt Hmc).
  - intros (Hi & Hc & Hlt). split.
    + exists 0. by rewrite lookup_take_lt.
    + intros j y Hj Hy. rewrite lookup_take_lt in Hy by lia.
      apply N.eqb_neq. intros ->. by apply (Hlt j).
Qed.

Lemma first_free_frame_None mc :
  first_free_frame mc = None ↔ ¬ some_free mc.
Proof.
  unfold first_free_frame, some_free. rewrite find_index_None. split.
  - intros H (i & Hi & Hc).
    assert ((0 =? 0) = false) as Habs; [|done].
    apply H, list_elem_of_lookup. exists i. by rewrite lookup_take_lt.
  - intros H c (i & Hc & Hi)%elem_of_take. apply N.eqb_neq. intros ->.
    apply H. by exists i.
Qed.

Lemma some_free_lowest mc : some_free mc → ∃ i, lowest_free mc i.
Proof.
  intros H. destruct (first_free_frame mc) as [i|] eqn:E.
  - exists i. by apply first_free_frame_Some.
  - by apply first_free_frame_None in E.
Qed.

Lemma vpn_index_inj v v' :
  outer_pte_index v = outer_pte_index v' → pte_index v = pte_index v' → v = v'.
Proof.
  unfold outer_pte_index, pte_index. intros H1%N2Nat.inj H2%N2Nat.inj.
  rewrite (N.div_mod' v (N.of_nat NR_PTES_PER_PAGE)).
  rewrite (N.div_mod' v' (N.of_nat NR_PTES_PER_PAGE)). congruence.
Qed.

Lemma read_pte_Some s vpn e :
  read_pte s vpn = Some e ↔
  ∃ p d, heap s !! ptbr s = Some p ∧
         outer_ptes (proc_pagetable p) !! outer_pte_index vpn = Some (Some d) ∧
         d !! pte_index vpn = Some e.
Proof.
  unfold read_pte, pte_of. split.
  - intros (p & Hp & H)%bind_Some. apply bind_Some in H as (d & Hd & He).
    exists p, d. repeat split; [done| |done].
    destruct (outer_ptes (proc_pagetable p) !! outer_pte_index vpn)
      as [[d'|]|]; simpl in Hd; congruence.
  - intros (p & d & -> & Hd & He). simpl. by rewrite Hd.
Qed.

Section write_pte.
Variables (s : state) (p : process) (vpn : N) (d : list pte).
Variables (e : pte) (mc : list N).
Hypothesis Hp : heap s !! ptbr s = Some p.
Hypothesis Hslot : is_Some (outer_ptes (proc_pagetable p) !! outer_pte_index vpn).
Hypothesis Hpte : is_Some (d !! pte_index vpn).

Lemma write_pte_heap :
  heap (write_pte s p (outer_pte_index vpn) d (pte_index vpn) e mc (tlb s)) !! ptbr s =
  Some (mk_process (pid p)
          (mk_pagetable (<[outer_pte_index vpn := Some (<[pte_index vpn := e]> d)]>
                           (outer_ptes (proc_pagetable p))))).
Proof.
  unfold write_pte. simpl. apply list_lookup_insert_eq.
  by eapply lookup_lt_Some.
Qed.

Lemma write_pte_read :
  read_pte (write_pte s p (outer_pte_index vpn) d (pte_index vpn) e mc (tlb s)) vpn
  = Some e.
Proof.
  apply read_pte_Some. eexists _, _. split; [apply write_pte_heap|].
  simpl. split.
  - apply list_lookup_insert_eq. by apply lookup_lt_is_Some.
  - apply list_lookup_insert_eq. by apply lookup_lt_is_Some.
Qed.

Lemma write_pte_unchanged_but :
  outer_ptes (proc_pagetable p) !! outer_pte_index vpn = Some (Some d) →
  unchanged_but s (write_pte s p (outer_pte_index vpn) d (pte_index vpn) e mc (tlb s)) vpn.
Proof.
  intros Hd. unfold unchanged_but. repeat split; try done.
  - intros a Ha. unfold write_pte. simpl.
    by apply list_lookup_insert_ne.
  - intros p0 Hp0. assert (p0 = p) as -> by congruence.
    eexists. split; [apply write_pte_heap|]. split; [done|].
    intros vpn' Hne. unfold pte_of. simpl.
    destruct (decide (outer_pte_index vpn' = outer_pte_index vpn)) as [Ho|Ho].
    + rewrite Ho, Hd, list_lookup_insert_eq by by apply lookup_lt_is_Some.
      simpl. apply list_lookup_insert_ne. intros Hi.
      apply Hne. by apply vpn_index_inj.
    + by rewrite list_lookup_insert_ne.
Qed.
End write_pte.

(** C4: when the entry for the vpn is valid, read-only with a read-write
    ceiling, and its frame has exactly one mapping, a write fault
    succeeds; afterwards the entry is read-write with the same pfn and
    the same ceiling, and nothing else has changed: [mapcounts], the
    other entries of the page table, the other processes, the queue and
    the TLB. *)
Theorem handle_page_fault_sole_owner s vpn e :
  read_pte s vpn = Some e →
  pte_valid e = true →
  pte_rw e = ACCESS_READ →
  pte_private e = ACCESS_READ + ACCESS_WRITE →
  mapcounts s !! N.to_nat (pte_pfn e) = Some 1 →
  ∃ s', handle_page_fault s vpn ACCESS_WRITE = Some (s', true) ∧
        read_pte s' vpn =
          Some (mk_pte true (ACCESS_READ + ACCESS_WRITE) (pte_pfn e) (pte_private e)) ∧
        mapcounts s' = mapcounts s ∧
        unchanged_but s s' vpn.
Proof.
  intros (p & d & Hp & Hd & He)%read_pte_Some Hv Hrw Hpriv Hc.
  destruct e as [v r f c]. simpl in *. subst v r c.
  eexists. split.
  - unfold handle_page_fault. rewrite Hp. simpl. rewrite Hd. simpl.
    rewrite He. simpl. rewrite Hc. simpl. reflexivity.
  - split; [by apply write_pte_read|]. split; [done|].
    by apply write_pte_unchanged_but.
Qed.

Lemma u32_dec_pred c : 0 < c → c ≤ UINT_MAX → u32_dec c = c - 1.
Proof.
  unfold u32_dec, UINT_MAX. intros H0 H1.
  replace (c + 4294967295) with (c - 1 + 1 * 4294967296) by lia.
  rewrite N.Div0.mod_add. apply N.mod_small. lia.
Qed.

Lemma lowest_free_ne mc i f c :
  lowest_free mc i → mc !! f = Some c → 0 < c → i ≠ f.
Proof. intros (_ & Hi & _) Hf Hc ->. assert (c = 0) by congruence. lia. Qed.

(** C3: when the entry for the vpn is valid, read-only with a read-write
    ceiling, and its frame has more than one mapping, a write fault
    succeeds if some frame is free: it takes the lowest-numbered free
    frame, whose count becomes 1, takes one from the count of the old
    frame, and makes the entry read-write on the new frame; nothing else
    changes, in this or any other process.  If no frame is free it
    fails and the state is as before. *)
Theorem handle_page_fault_shared s vpn e c :
  read_pte s vpn = Some e →
  pte_valid e = true →
  pte_rw e = ACCESS_READ →
  pte_private e = ACCESS_READ + ACCESS_WRITE →
  mapcounts s !! N.to_nat (pte_pfn e) = Some c →
  1 < c → c ≤ UINT_MAX →
  (some_free (mapcounts s) →
     ∃ i s', lowest_free (mapcounts s) i ∧
       handle_page_fault s vpn ACCESS_WRITE = Some (s', true) ∧
       read_pte s' vpn =
         Some (mk_pte true (ACCESS_READ + ACCESS_WRITE) (N.of_nat i) (pte_private e)) ∧
       i ≠ N.to_nat (pte_pfn e) ∧
       mapcounts s' = <[i := 1]> (<[N.to_nat (pte_pfn e) := c - 1]> (mapcounts s)) ∧
       unchanged_but s s' vpn) ∧
  (¬ some_free (mapcounts s) →
     handle_page_fault s vpn ACCESS_WRITE = Some (s, false)).
Proof.
  intros (p & d & Hp & Hd & He)%read_pte_Some Hv Hrw Hpriv Hc Hc1 Hc2.
  destruct e as [v r f pr]. simpl in *. subst v r pr.
  assert ((c =? 1) = false) as Hne by (apply N.eqb_neq; lia).
  split.
  - intros (i & Hlow)%some_free_lowest.
    pose proof (lowest_free_ne _ _ _ _ Hlow Hc ltac:(lia)) as Hif.
    pose proof Hlow as Hfree%first_free_frame_Some.
    destruct Hlow as (_ & Hi & _).
    exists i. eexists. split; [by apply first_free_frame_Some|]. split.
    { unfold handle_page_fault. rewrite Hp. simpl. rewrite Hd. simpl.
      rewrite He. simpl. rewrite Hc. simpl. rewrite Hne, Hfree.
      rewrite list_lookup_insert_ne, Hi by done. simpl. reflexivity. }
    split; [by apply write_pte_read|]. split; [done|]. split.
    + simpl. by rewrite u32_dec_pred by lia.
    + by apply write_pte_unchanged_but.
  - intros Hnone%first_free_frame_None.
    unfold handle_page_fault. rewrite Hp. simpl. rewrite Hd. simpl.
    rewrite He. simpl. rewrite Hc. simpl. by rewrite Hne, Hnone.
Qed.

Lemma alloc_page_Some fresh s vpn rw p slot i :
  heap s !! ptbr s = Some p →
  outer_ptes (proc_pagetable p) !! outer_pte_index vpn = Some slot →
  is_Some (default fresh slot !! pte_index vpn) →
  lowest_free (mapcounts s) i →
  alloc_page fresh s vpn rw =
    Some (write_pte s p (outer_pte_index vpn) (default fresh slot) (pte_index vpn)
            (mk_pte true rw (N.of_nat i) rw) (<[i := 1]> (mapcounts s)) (tlb s),
          N.of_nat i).
Proof.
  intros Hp Hslot [e0 He0] Hlow.
  pose proof Hlow as Hfree%first_free_frame_Some. destruct Hlow as (_ & Hi & _).
  unfold alloc_page. rewrite Hp. simpl. rewrite Hslot. simpl.
  rewrite Hfree, He0. simpl. by rewrite Hi.
Qed.

(** C5: when some frame is free, [alloc_page] returns the lowest-numbered
    frame whose count is zero, leaves for the vpn a valid entry on that
    frame with [rw] and [private] both the requested access, and the
    count of the frame is 1; when no frame is free it returns the
    sentinel -1 (as an [unsigned int]) and the state is as before. *)
Theorem alloc_page_lowest_free fresh s vpn rw p slot :
  heap s !! ptbr s = Some p →
  outer_ptes (proc_pagetable p) !! outer_pte_index vpn = Some slot →
  is_Some (default fresh slot !! pte_index vpn) →
  (some_free (mapcounts s) →
     ∃ i s', lowest_free (mapcounts s) i ∧
       alloc_page fresh s vpn rw = Some (s', N.of_nat i) ∧
       read_pte s' vpn = Some (mk_pte true rw (N.of_nat i) rw) ∧
       mapcounts s' = <[i := 1]> (mapcounts s) ∧
       mapcounts s' !! i = Some 1) ∧
  (¬ some_free (mapcounts s) →
     alloc_page fresh s vpn rw = Some (s, UINT_MAX)).
Proof.
  intros Hp Hslot Hpte. split.
  - intros (i & Hlow)%some_free_lowest. exists i. eexists.
    split; [done|]. split; [by eapply alloc_page_Some|].
    split; [by apply write_pte_read|]. split; [done|]. simpl.
    apply list_lookup_insert_eq. destruct Hlow as (_ & Hi & _).
    by eapply lookup_lt_Some.
  - intros Hnone%first_free_frame_None.
    unfold alloc_page. rewrite Hp. simpl. rewrite Hslot. simpl.
    by rewrite Hnone.
Qed.

(** C10: when the entry for the vpn is already valid on a frame [f]
    whose count is at least 1, and some frame is free, [alloc_page]
    overwrites the entry with the lowest-numbered free frame, whose
    count becomes 1; the new frame is not [f], and the count of [f] is
    what it was, although the entry no longer maps [f].  Nothing else
    changes. *)
Theorem alloc_page_over_valid_entry fresh s vpn rw e c :
  read_pte s vpn = Some e →
  pte_valid e = true →
  mapcounts s !! N.to_nat (pte_pfn e) = Some c →
  1 ≤ c →
  some_free (mapcounts s) →
  ∃ i s', lowest_free (mapcounts s) i ∧
    alloc_page fresh s vpn rw = Some (s', N.of_nat i) ∧
    read_pte s' vpn = Some (mk_pte true rw (N.of_nat i) rw) ∧
    mapcounts s' !! i = Some 1 ∧
    i ≠ N.to_nat (pte_pfn e) ∧
    mapcounts s' !! N.to_nat (pte_pfn e) = Some c ∧
    unchanged_but s s' vpn.
Proof.
  intros (p & d & Hp & Hd & He)%read_pte_Some Hv Hc Hc1
         (i & Hlow)%some_free_lowest.
  pose proof (lowest_free_ne _ _ _ _ Hlow Hc ltac:(lia)) as Hif.
  exists i. eexists. split; [done|].
  split; [eapply alloc_page_Some; by eauto|]. simpl.
  split; [by apply write_pte_read|]. split.
  { simpl. apply list_lookup_insert_eq. destruct Hlow as (_ & Hi & _).
    by eapply lookup_lt_Some. }
  split; [done|]. split.
  - simpl. by rewrite list_lookup_insert_ne.
  - by apply write_pte_unchanged_but.
Qed.

(** ** The ready queue *)

Lemma list_del_notin a q : a ∉ q → list_del a q = q.
Proof.
  induction q as [|b q IH]; [done|]. intros [Hne Hq]%not_elem_of_cons. simpl.
  destruct (Nat.eqb_spec b a) as [->|_]; [done|]. by rewrite IH.
Qed.

Lemma elem_of_list_del a b q : b ∈ list_del a q ↔ b ∈ q ∧ b ≠ a.
Proof.
  induction q as [|c q IH]; simpl.
  - split; [by intros ?%elem_of_nil | by intros [?%elem_of_nil _]].
  - destruct (Nat.eqb_spec c a) as [->|Hne].
    + rewrite IH, elem_of_cons. split; [tauto|].
      intros [[->|Hb] Hne]; [done | tauto].
    + rewrite !elem_of_cons, IH. split; [|tauto].
      intros [->|[Hb Hba]]; tauto.
Qed.

Lemma list_del_entry_in a q : a ∈ q → list_del_entry a q = Some (list_del a q).
Proof.
  intros Ha. unfold list_del_entry.
  assert (existsb (λ b, (b =? a)%nat) q = true) as ->; [|done].
  apply existsb_exists. exists a. split; [by apply list_elem_of_In|].
  apply Nat.eqb_refl.
Qed.

Lemma list_del_entry_notin a q : a ∉ q → list_del_entry a q = None.
Proof.
  intros Ha. unfold list_del_entry.
  destruct (existsb (λ b, (b =? a)%nat) q) eqn:Hex; [|done].
  apply existsb_exists in Hex as (b & Hb%list_elem_of_In & ->%Nat.eqb_eq). done.
Qed.

Lemma NoDup_list_del a q : NoDup q → NoDup (list_del a q).
Proof.
  induction 1 as [|b q Hb _ IH]; simpl; [constructor|].
  destruct (b =? a)%nat; [done|]. constructor; [|done].
  rewrite elem_of_list_del. tauto.
Qed.

Lemma find_pid_None h q pid' :
  find_pid h q pid' = Some None ↔
  ∀ a, a ∈ q → ∃ p, h !! a = Some p ∧ pid p ≠ pid'.
Proof.
  induction q as [|a q IH]; simpl.
  - split; [by intros _ a ?%elem_of_nil | done].
  - destruct (h !! a) as [p|] eqn:Hp; simpl.
    + destruct (N.eqb_spec (pid p) pid') as [Heq|Hne].
      * split; [done|]. intros H. destruct (H a) as (p' & Hp' & Hne); [left|].
        congruence.
      * rewrite IH. split.
        -- intros H b [->|Hb]%elem_of_cons; [by exists p | by apply H].
        -- intros H b Hb. apply H. by right.
    + split; [done|]. intros H. destruct (H a) as (p' & Hp' & _); [left|].
      congruence.
Qed.

Lemma find_pid_Some h q pid' a :
  find_pid h q pid' = Some (Some a) →
  a ∈ q ∧ ∃ p, h !! a = Some p ∧ pid p = pid'.
Proof.
  induction q as [|b q IH]; simpl; [done|].
  destruct (h !! b) as [p|] eqn:Hp; simpl; [|done].
  destruct (N.eqb_spec (pid p) pid') as [Heq|Hne].
  - intros [= <-]. split; [left | by exists p].
  - intros [Ha Hex]%IH. split; [by right | done].
Qed.

(** ** The loops of fork *)

Lemma for_loop_S {St} n (body : nat → St → option St) s :
  for_loop (S n) body s = for_loop n body s ≫= body n.
Proof. unfold for_loop. by rewrite seq_S, foldl_snoc. Qed.

Lemma cow_downgrade_valid e : pte_valid (cow_downgrade e) = pte_valid e.
Proof. unfold cow_downgrade. by destruct (pte_rw e =? _). Qed.

Lemma cow_downgrade_pfn e : pte_pfn (cow_downgrade e) = pte_pfn e.
Proof. unfold cow_downgrade. by destruct (pte_rw e =? _). Qed.

Lemma count_directory_snoc f d e :
  count_directory f (d ++ [e]) =
  (count_directory f d + if maps_frame f e then 1 else 0)%nat.
Proof.
  unfold count_directory. rewrite List.filter_app, length_app. simpl.
  by destruct (maps_frame f e).
Qed.

Lemma maps_frame_index f e :
  maps_frame (N.of_nat f) e = pte_valid e && bool_decide (N.to_nat (pte_pfn e) = f).
Proof.
  unfold maps_frame. f_equal. destruct (N.eqb_spec (pte_pfn e) (N.of_nat f)).
  - rewrite bool_decide_eq_true_2; [done | lia].
  - rewrite bool_decide_eq_false_2; [done | lia].
Qed.

Lemma fork_pte_loop d mc n :
  (n ≤ length d)%nat →
  (∀ j e, d !! j = Some e → pte_valid e = true →
          (N.to_nat (pte_pfn e) < length mc)%nat) →
  ∃ mc', for_loop n fork_pte (d, [], mc) =
           Some (map cow_downgrade (take n d) ++ drop n d,
                 map cow_downgrade (take n d), mc') ∧
         length mc' = length mc ∧
         ∀ f c, mc !! f = Some c →
                mc' !! f = Some (u32_add c (count_directory (N.of_nat f) (take n d))).
Proof.
  intros Hn Hin. induction n as [|n IH].
  - exists mc. by rewrite take_0, drop_0.
  - destruct IH as (mc' & Hloop & Hlen & Hmc); [lia|].
    destruct (lookup_lt_is_Some_2 d n) as [e He]; [lia|].
    assert ((map cow_downgrade (take n d) ++ drop n d) !! n = Some e) as Hlk.
    { rewrite lookup_app_r; rewrite length_map, length_take_le by lia; [|lia].
      by rewrite Nat.sub_diag, lookup_drop, Nat.add_0_r. }
    assert (<[n := cow_downgrade e]> (map cow_downgrade (take n d) ++ drop n d)
            = map cow_downgrade (take (S n) d) ++ drop (S n) d) as Hins.
    { rewrite insert_app_r_alt; rewrite length_map, length_take_le by lia; [|lia].
      rewrite Nat.sub_diag, (drop_S d e n He), (take_S_r d n e He), map_app.
      simpl. by rewrite <- app_assoc. }
    assert (map cow_downgrade (take n d) ++ [cow_downgrade e]
            = map cow_downgrade (take (S n) d)) as Hcd.
    { by rewrite (take_S_r d n e He), map_app. }
    rewrite for_loop_S, Hloop. simpl.
    destruct (pte_valid e) eqn:Hv.
    + destruct (lookup_lt_is_Some_2 mc' (N.to_nat (pte_pfn e))) as [c0 Hc0].
      { rewrite Hlen. by eapply Hin. }
      exists (<[N.to_nat (pte_pfn e) := u32_inc c0]> mc'). split.
      { rewrite Hlk. simpl.
        rewrite Hins, Hcd, cow_downgrade_valid, cow_downgrade_pfn, Hv, Hc0.
        done. }
      split; [by rewrite length_insert|].
      intros f c Hf. rewrite (take_S_r d n e He).
      rewrite count_directory_snoc, maps_frame_index, Hv. simpl.
      case_bool_decide as Hpf.
      * subst f. rewrite list_lookup_insert_eq by by eapply lookup_lt_Some.
        rewrite (Hmc _ _ Hf) in Hc0. injection Hc0 as <-.
        by rewrite Nat.add_1_r.
      * rewrite list_lookup_insert_ne by done.
        rewrite Nat.add_0_r. by apply Hmc.
    + exists mc'. split.
      { rewrite Hlk. simpl.
        by rewrite Hins, Hcd, cow_downgrade_valid, Hv. }
      split; [done|].
      intros f c Hf. rewrite (take_S_r d n e He).
      rewrite count_directory_snoc, maps_frame_index, Hv. simpl.
      rewrite Nat.add_0_r. by apply Hmc.
Qed.

Lemma count_pagetable_snoc f outer o :
  count_pagetable f (mk_pagetable (outer ++ [o])) =
  (count_pagetable f (mk_pagetable outer)
   + from_option (count_directory f) 0 o)%nat.
Proof.
  unfold count_pagetable. cbn [outer_ptes]. rewrite sum_list_with_app.
  simpl. lia.
Qed.

Lemma u32_add_add c k1 k2 : u32_add (u32_add c k1) k2 = u32_add c (k1 + k2).
Proof. unfold u32_add. by rewrite Nat.add_comm, Nat.iter_add. Qed.

Lemma fork_directory_loop junk outer mc n :
  (n ≤ length outer)%nat →
  (∀ i d, outer !! i = Some (Some d) → length d = NR_PTES_PER_PAGE) →
  (∀ i d j e, outer !! i = Some (Some d) → d !! j = Some e →
              pte_valid e = true → (N.to_nat (pte_pfn e) < length mc)%nat) →
  ∃ mc', for_loop n (fork_directory junk) (outer, [], mc) =
           Some (map (option_map (map cow_downgrade)) (take n outer) ++ drop n outer,
                 imap (child_slot junk) (take n outer), mc') ∧
         length mc' = length mc ∧
         ∀ f c, mc !! f = Some c →
                mc' !! f = Some (u32_add c (count_pagetable (N.of_nat f)
                                              (mk_pagetable (take n outer)))).
Proof.
  intros Hn Hlen Hin. induction n as [|n IH].
  - exists mc. by rewrite take_0, drop_0.
  - destruct IH as (mc' & Hloop & Hmclen & Hmc); [lia|].
    destruct (lookup_lt_is_Some_2 outer n) as [o Ho]; [lia|].
    assert ((map (option_map (map cow_downgrade)) (take n outer) ++ drop n outer) !! n
            = Some o) as Hlk.
    { rewrite lookup_app_r; rewrite length_map, length_take_le by lia; [|lia].
      by rewrite Nat.sub_diag, lookup_drop, Nat.add_0_r. }
    assert (<[n := option_map (map cow_downgrade) o]>
              (map (option_map (map cow_downgrade)) (take n outer) ++ drop n outer)
            = map (option_map (map cow_downgrade)) (take (S n) outer)
                ++ drop (S n) outer) as Hins.
    { rewrite insert_app_r_alt; rewrite length_map, length_take_le by lia; [|lia].
      rewrite Nat.sub_diag, (drop_S outer o n Ho), (take_S_r outer n o Ho), map_app.
      simpl. by rewrite <- app_assoc. }
    assert (imap (child_slot junk) (take n outer) ++ [child_slot junk n o]
            = imap (child_slot junk) (take (S n) outer)) as Hchild.
    { rewrite (take_S_r outer n o Ho), imap_app. simpl.
      by rewrite length_take_le, Nat.add_0_r by lia. }
    rewrite for_loop_S, Hloop. simpl.
    destruct o as [d|].
    + destruct (fork_pte_loop d mc' NR_PTES_PER_PAGE) as (mc'' & Hd & Hl'' & Hmc'').
      { by rewrite (Hlen n d Ho). }
      { intros j e He Hv. rewrite Hmclen. by eapply Hin. }
      rewrite take_ge, drop_ge, app_nil_r in Hd by by rewrite (Hlen n d Ho).
      rewrite take_ge in Hmc'' by by rewrite (Hlen n d Ho).
      exists mc''. split.
      { rewrite Hlk. simpl. rewrite Hd. simpl. by rewrite <- Hins, <- Hchild. }
      split; [congruence|].
      intros f c Hf. rewrite (take_S_r outer n _ Ho), count_pagetable_snoc. simpl.
      rewrite <- u32_add_add. by apply Hmc'', Hmc.
    + exists mc'. split.
      { rewrite Hlk. simpl. rewrite <- Hins, <- Hchild. simpl.
        by rewrite list_insert_id. }
      split; [done|].
      intros f c Hf. rewrite (take_S_r outer n _ Ho), count_pagetable_snoc. simpl.
      rewrite Nat.add_0_r. by apply Hmc.
Qed.

(** Without wrap-around, [u32_add] is addition. *)
Lemma u32_add_small c k : c + N.of_nat k ≤ UINT_MAX → u32_add c k = c + N.of_nat k.
Proof.
  unfold u32_add, UINT_MAX. induction k as [|k IH]; intros Hle; simpl.
  - lia.
  - rewrite IH by lia. unfold u32_inc. rewrite N.mod_small by lia. lia.
Qed.

Lemma pagetable_ok_sizes pt :
  pagetable_ok pt = true →
  length (outer_ptes pt) = NR_PTES_PER_PAGE ∧
  ∀ i d, outer_ptes pt !! i = Some (Some d) → length d = NR_PTES_PER_PAGE.
Proof.
  unfold pagetable_ok. intros [Hlen Hall]%andb_true_iff.
  apply Nat.eqb_eq in Hlen. split; [done|]. intros i d Hd.
  rewrite List.forallb_forall in Hall.
  apply Nat.eqb_eq, (Hall (Some d)), list_elem_of_In, list_elem_of_lookup.
  by exists i.
Qed.

Lemma frames_in_range_lt mc pt i d j e :
  frames_in_range mc pt = true →
  outer_ptes pt !! i = Some (Some d) → d !! j = Some e → pte_valid e = true →
  (N.to_nat (pte_pfn e) < length mc)%nat.
Proof.
  unfold frames_in_range. rewrite List.forallb_forall. intros Hall Hd He Hv.
  assert (forallb (λ e, negb (pte_valid e)
                        || (N.to_nat (pte_pfn e) <? length mc)%nat) d = true) as Hdir.
  { apply (Hall (Some d)), list_elem_of_In, list_elem_of_lookup. by exists i. }
  rewrite List.forallb_forall in Hdir.
  assert (negb (pte_valid e) || (N.to_nat (pte_pfn e) <? length mc)%nat = true) as H.
  { apply Hdir, list_elem_of_In, list_elem_of_lookup. by exists j. }
  rewrite Hv in H. simpl in H. by apply Nat.ltb_lt.
Qed.

Lemma pte_of_Some p vpn e :
  pte_of p vpn = Some e ↔
  ∃ d, outer_ptes (proc_pagetable p) !! outer_pte_index vpn = Some (Some d) ∧
       d !! pte_index vpn = Some e.
Proof.
  unfold pte_of. split.
  - intros (d & Hd & He)%bind_Some. exists d. split; [|done].
    destruct (outer_ptes (proc_pagetable p) !! outer_pte_index vpn)
      as [[d'|]|]; simpl in Hd; congruence.
  - intros (d & Hd & He). by rewrite Hd.
Qed.

(** C2: when the pid is neither that of the current process nor that of
    a process of the ready queue, [switch_process] forks.  Every entry
    of the parent that was read-write is read-only afterwards, with the
    same [valid], [pfn] and [private]; its other entries are as before;
    the child has, for every entry of the parent, an entry with the
    values the parent's has after the downgrade; the count of every
    frame has been incremented once for each valid entry of the parent
    that maps it: a count [c] of a frame that [k] valid entries of the
    parent map is [c + k] afterwards, unless that exceeds an
    [unsigned int]; the child is allocated with the given pid and is
    [current], [ptbr] points to its page table, and the parent is at
    the end of the ready queue. *)
Theorem switch_process_fork junk s pid' parent :
  ptbr s = current s →
  heap s !! current s = Some parent →
  pid parent ≠ pid' →
  (∀ a, a ∈ processes s → ∃ p, heap s !! a = Some p ∧ pid p ≠ pid') →
  pagetable_ok (proc_pagetable parent) = true →
  frames_in_range (mapcounts s) (proc_pagetable parent) = true →
  ∃ s' parent' child,
    switch_process junk s pid' = Some s' ∧
    heap s' !! current s = Some parent' ∧ pid parent' = pid parent ∧
    current s' = length (heap s) ∧ ptbr s' = current s' ∧
    heap s' !! current s' = Some child ∧ pid child = pid' ∧
    processes s' = processes s ++ [current s] ∧
    (∀ vpn e, pte_of parent vpn = Some e →
       pte_of parent' vpn = Some (cow_downgrade e) ∧
       pte_of child vpn = pte_of parent' vpn) ∧
    (∀ e, pte_rw e = ACCESS_READ + ACCESS_WRITE →
       cow_downgrade e = mk_pte (pte_valid e) ACCESS_READ (pte_pfn e) (pte_private e)) ∧
    (∀ e, pte_rw e ≠ ACCESS_READ + ACCESS_WRITE → cow_downgrade e = e) ∧
    (∀ f c, mapcounts s !! f = Some c →
       mapcounts s' !! f =
         Some (u32_add c (count_pagetable (N.of_nat f) (proc_pagetable parent)))) ∧
    (∀ f c, mapcounts s !! f = Some c →
       c + N.of_nat (count_pagetable (N.of_nat f) (proc_pagetable parent)) ≤ UINT_MAX →
       mapcounts s' !! f =
         Some (c + N.of_nat (count_pagetable (N.of_nat f) (proc_pagetable parent)))) ∧
    length (mapcounts s') = length (mapcounts s) ∧
    ((∀ i, junk i = None) → proc_pagetable child = proc_pagetable parent') ∧
    (∀ a, a ≠ current s → a ≠ current s' → heap s' !! a = heap s !! a).
Proof.
  intros Hptbr Hparent Hpid Hqueue%find_pid_None [Hlen Hdirs]%pagetable_ok_sizes Hrange.
  destruct (fork_directory_loop junk (outer_ptes (proc_pagetable parent))
              (mapcounts s) NR_PTES_PER_PAGE) as (mc' & Hloop & Hmclen & Hmc).
  { by rewrite Hlen. }
  { done. }
  { intros i d j e. by apply frames_in_range_lt. }
  rewrite take_ge, drop_ge, app_nil_r in Hloop by by rewrite Hlen.
  rewrite take_ge in Hmc by by rewrite Hlen.
  pose proof (lookup_lt_Some _ _ _ Hparent) as Hcur.
  eexists _, _, _. split.
  { unfold switch_process. rewrite Hqueue. simpl. rewrite Hparent. simpl.
    rewrite (proj2 (N.eqb_neq _ _) Hpid), Hptbr, Hparent. simpl.
    rewrite Hloop. simpl. reflexivity. }
  simpl. split.
  { rewrite lookup_app_l by by rewrite length_insert.
    by apply list_lookup_insert_eq. }
  split; [done|]. split; [done|]. split; [done|]. split.
  { rewrite lookup_app_r by by rewrite length_insert.
    by rewrite length_insert, Nat.sub_diag. }
  split; [done|]. split; [done|]. split.
  { intros vpn e (d & Hd & He)%pte_of_Some.
    assert (pte_of (mk_process (pid parent)
              (mk_pagetable (map (option_map (map cow_downgrade))
                                 (outer_ptes (proc_pagetable parent))))) vpn
            = Some (cow_downgrade e)) as Hp'.
    { apply pte_of_Some. exists (map cow_downgrade d). simpl. split.
      - change (map ?f ?l) with (f <$> l) at 1.
        by rewrite list_lookup_fmap, Hd.
      - change (map ?f ?l) with (f <$> l).
        by rewrite list_lookup_fmap, He. }
    split; [done|]. rewrite Hp'.
    apply pte_of_Some. exists (map cow_downgrade d). simpl. split.
    - by rewrite list_lookup_imap, Hd.
    - change (map ?f ?l) with (f <$> l).
      by rewrite list_lookup_fmap, He. }
  split.
  { intros e He. unfold cow_downgrade. by rewrite He. }
  split.
  { intros e He. unfold cow_downgrade.
    by rewrite (proj2 (N.eqb_neq _ _) He). }
  split; [done|]. split.
  { intros f c Hf Hle. rewrite (Hmc f c Hf). by rewrite u32_add_small. }
  split; [done|]. split.
  { intros Hjunk. simpl. f_equal. apply list_eq. intros i.
    change (map ?f ?l) with (f <$> l).
    rewrite list_lookup_imap, list_lookup_fmap.
    destruct (outer_ptes (proc_pagetable parent) !! i) as [[d|]|]; simpl;
      [done | by rewrite Hjunk | done]. }
  intros a Ha Hchild.
  destruct (decide (a < length (heap s))%nat) as [Hlt|Hge].
  - rewrite lookup_app_l by by rewrite length_insert.
    apply list_lookup_insert_ne. congruence.
  - rewrite !lookup_ge_None_2; [done | lia |].
    rewrite length_app, length_insert. simpl. lia.
Qed.

(** ** The scheduler invariant

    [sched_ok] holds of the boot state and every operation keeps it, so
    the hypotheses on the ready queue in the statements about
    [switch_process] hold of every state the code can be in. *)

Lemma sched_ok_current s c :
  sched_ok s → heap s !! current s = Some c →
  (current s ∉ processes s) ∧
  ∀ a, a ∈ processes s → ∃ p, heap s !! a = Some p ∧ pid p ≠ pid c.
Proof.
  intros (_ & Hnd & Halloc & Hpids) Hc. apply NoDup_cons in Hnd as [Hnotin _].
  split; [done|]. intros a Ha.
  destruct (Halloc a) as [p Hp]; [by right|]. exists p. split; [done|].
  intros Heq. assert (a = current s) as ->; [|done].
  eapply Hpids; [by right | left | done..].
Qed.

Lemma sched_ok_requeue s a t :
  sched_ok s → a ∈ processes s →
  sched_ok (mk_state (heap s) (list_del a (list_add_tail (current s) (processes s)))
                     a a t (mapcounts s)).
Proof.
  intros (_ & Hnd & Halloc & Hpids) Ha. unfold list_add_tail.
  assert (∀ x, x ∈ a :: list_del a (processes s ++ [current s]) →
               x ∈ current s :: processes s) as Hsub.
  { intros x [->|Hx]%elem_of_cons; [by right|].
    apply elem_of_list_del in Hx as [Hx _].
    apply elem_of_app in Hx as [Hx|Hx]; [by right|].
    apply list_elem_of_singleton in Hx as ->. left. }
  split; [done|]. simpl. split.
  { constructor.
    - rewrite elem_of_list_del. tauto.
    - apply NoDup_list_del. apply NoDup_cons in Hnd as [Hc Hq].
      apply NoDup_app. split; [done|]. split; [|apply NoDup_singleton].
      intros x Hx ->%list_elem_of_singleton. done. }
  split.
  - intros x Hx. by apply Halloc, Hsub.
  - intros x y p q Hx Hy. apply Hpids; by apply Hsub.
Qed.

Lemma sched_ok_fork s parent outer couter pid' t mc :
  sched_ok s →
  heap s !! current s = Some parent →
  pid parent ≠ pid' →
  (∀ a, a ∈ processes s → ∃ p, heap s !! a = Some p ∧ pid p ≠ pid') →
  sched_ok (mk_state
              (<[current s := mk_process (pid parent) (mk_pagetable outer)]> (heap s)
                 ++ [mk_process pid' (mk_pagetable couter)])
              (list_add_tail (current s) (processes s))
              (length (heap s)) (length (heap s)) t mc).
Proof.
  intros (_ & Hnd & Halloc & Hpids) Hparent Hpid Hqueue. unfold list_add_tail.
  assert (∀ x, x ∈ processes s ++ [current s] →
               x ∈ current s :: processes s) as Hsub.
  { intros x [Hx|Hx]%elem_of_app; [by right|].
    apply list_elem_of_singleton in Hx as ->. left. }
  assert (∀ x, x ∈ current s :: processes s → (x < length (heap s))%nat) as Hlt.
  { intros x Hx. by apply lookup_lt_is_Some, Halloc. }
  assert (∀ x p', x ∈ current s :: processes s →
            (<[current s := mk_process (pid parent) (mk_pagetable outer)]> (heap s)
               ++ [mk_process pid' (mk_pagetable couter)]) !! x = Some p' →
            pid p' ≠ pid' ∧ ∃ p, heap s !! x = Some p ∧ pid p = pid p') as Hold.
  { intros x p' Hx. rewrite lookup_app_l by (rewrite length_insert; by apply Hlt).
    destruct (decide (x = current s)) as [->|Hne].
    - rewrite list_lookup_insert_eq by by apply Hlt. intros [= <-]. simpl.
      split; [done|]. by exists parent.
    - rewrite list_lookup_insert_ne by done. intros Hp'.
      apply elem_of_cons in Hx as [->|Hx]; [done|].
      destruct (Hqueue x Hx) as (p & Hp & Hne'). assert (p = p') as -> by congruence.
      split; [done|]. by exists p'. }
  assert ((<[current s := mk_process (pid parent) (mk_pagetable outer)]> (heap s)
             ++ [mk_process pid' (mk_pagetable couter)]) !! length (heap s)
          = Some (mk_process pid' (mk_pagetable couter))) as Hchild.
  { rewrite lookup_app_r by by rewrite length_insert.
    by rewrite length_insert, Nat.sub_diag. }
  split; [done|]. simpl. split.
  { constructor.
    - intros Hin%Hsub%Hlt. lia.
    - apply NoDup_cons in Hnd as [Hc Hq].
      apply NoDup_app. split; [done|]. split; [|apply NoDup_singleton].
      intros x Hx ->%list_elem_of_singleton. done. }
  split.
  - intros x [->|Hx%Hsub]%elem_of_cons; [by rewrite Hchild|].
    rewrite lookup_app_l by (rewrite length_insert; by apply Hlt).
    apply lookup_lt_is_Some. rewrite length_insert. by apply Hlt.
  - intros x y p q [->|Hx%Hsub]%elem_of_cons [->|Hy%Hsub]%elem_of_cons Hp Hq Heq.
    + done.
    + rewrite Hchild in Hp. injection Hp as <-.
      destruct (Hold y q Hy Hq) as [Hne _]. simpl in Heq. congruence.
    + rewrite Hchild in Hq. injection Hq as <-.
      destruct (Hold x p Hx Hp) as [Hne _]. simpl in Heq. congruence.
    + destruct (Hold x p Hx Hp) as (_ & p0 & Hp0 & Hpid0).
      destruct (Hold y q Hy Hq) as (_ & q0 & Hq0 & Hqid0).
      eapply Hpids; [done | done | done | done | congruence].
Qed.

Lemma switch_process_sched_ok junk s pid' s' :
  sched_ok s → switch_process junk s pid' = Some s' → sched_ok s'.
Proof.
  intros Hok Hrun. unfold switch_process in Hrun.
  destruct (find_pid (heap s) (processes s) pid') as [[a|]|] eqn:Hfind;
    simpl in Hrun; [| |done].
  - apply find_pid_Some in Hfind as (Ha & p & Hp & Hpid).
    rewrite Hp in Hrun. simpl in Hrun. rewrite Hpid, N.eqb_refl in Hrun.
    rewrite list_del_entry_in in Hrun
      by (unfold list_add_tail; apply elem_of_app; by left).
    injection Hrun as <-. by apply sched_ok_requeue.
  - destruct (heap s !! current s) as [c|] eqn:Hc; simpl in Hrun; [|done].
    destruct (N.eqb_spec (pid c) pid') as [Heq|Hne].
    + destruct (sched_ok_current s c Hok Hc) as [Hnotin _].
      by rewrite list_del_entry_notin in Hrun.
    + pose proof Hok as (Hptbr & _). rewrite Hptbr, Hc in Hrun. simpl in Hrun.
      destruct (for_loop NR_PTES_PER_PAGE (fork_directory junk)
                  (outer_ptes (proc_pagetable c), [], mapcounts s))
        as [[[outer couter] mc]|]; simpl in Hrun; [|done].
      injection Hrun as <-. apply sched_ok_fork; try done.
      by apply find_pid_None.
Qed.

Lemma write_pte_sched_ok s p i d j e mc t :
  sched_ok s → heap s !! ptbr s = Some p → sched_ok (write_pte s p i d j e mc t).
Proof.
  intros (Hptbr & Hnd & Halloc & Hpids) Hp. unfold write_pte.
  split; [done|]. simpl. split; [done|].
  assert (∀ a q, <[ptbr s := mk_process (pid p)
                     (mk_pagetable (<[i := Some (<[j := e]> d)]>
                                      (outer_ptes (proc_pagetable p))))]> (heap s) !! a
                 = Some q →
                 ∃ q0, heap s !! a = Some q0 ∧ pid q0 = pid q) as Hsame.
  { intros a q. destruct (decide (a = ptbr s)) as [->|Hne].
    - rewrite list_lookup_insert_eq by by eapply lookup_lt_Some.
      intros [= <-]. by exists p.
    - rewrite list_lookup_insert_ne by done. intros Hq. by exists q. }
  split.
  - intros a Ha. apply lookup_lt_is_Some. rewrite length_insert.
    by apply lookup_lt_is_Some, Halloc.
  - intros a b q1 q2 Ha Hb Hq1 Hq2 Heq.
    destruct (Hsame a q1 Hq1) as (p1 & Hp1 & Hpid1).
    destruct (Hsame b q2 Hq2) as (p2 & Hp2 & Hpid2).
    eapply Hpids; [done | done | done | done | congruence].
Qed.

Lemma alloc_page_sched_ok fresh s vpn rw s' r :
  sched_ok s → alloc_page fresh s vpn rw = Some (s', r) → sched_ok s'.
Proof.
  intros Hok Hrun. unfold alloc_page in Hrun.
  destruct (heap s !! ptbr s) as [p|] eqn:Hp; simpl in Hrun; [|done].
  destruct (outer_ptes (proc_pagetable p) !! outer_pte_index vpn) as [slot|];
    simpl in Hrun; [|done].
  destruct (first_free_frame (mapcounts s)) as [i|]; [|by injection Hrun as <- _].
  destruct (default fresh slot !! pte_index vpn); simpl in Hrun; [|done].
  destruct (mapcounts s !! i); simpl in Hrun; [|done].
  injection Hrun as <- _. by apply write_pte_sched_ok.
Qed.

Lemma free_page_sched_ok s vpn s' :
  sched_ok s → free_page s vpn = Some s' → sched_ok s'.
Proof.
  intros Hok Hrun. unfold free_page in Hrun.
  destruct (heap s !! ptbr s) as [p|] eqn:Hp; simpl in Hrun; [|done].
  destruct (outer_ptes (proc_pagetable p) !! outer_pte_index vpn) as [[d|]|];
    simpl in Hrun; [| by injection Hrun as <- | done].
  destruct (d !! pte_index vpn) as [e|]; simpl in Hrun; [|done].
  destruct (mapcounts s !! N.to_nat (pte_pfn e)); simpl in Hrun; [|done].
  injection Hrun as <-. by apply write_pte_sched_ok.
Qed.

Lemma handle_page_fault_sched_ok s vpn rw s' r :
  sched_ok s → handle_page_fault s vpn rw = Some (s', r) → sched_ok s'.
Proof.
  intros Hok Hrun. unfold handle_page_fault in Hrun.
  destruct (heap s !! ptbr s) as [p|] eqn:Hp; simpl in Hrun; [|done].
  destruct (outer_ptes (proc_pagetable p) !! outer_pte_index vpn) as [[d|]|];
    simpl in Hrun; [| by injection Hrun as <- _ | done].
  destruct (d !! pte_index vpn) as [e|]; simpl in Hrun; [|done].
  destruct (pte_valid e && (rw =? ACCESS_WRITE)
            && (pte_private e =? ACCESS_WRITE + ACCESS_READ)
            && (pte_rw e =? ACCESS_READ)); [|by injection Hrun as <- _].
  destruct (mapcounts s !! N.to_nat (pte_pfn e)) as [c|]; simpl in Hrun; [|done].
  destruct (c =? 1).
  { injection Hrun as <- _. by apply write_pte_sched_ok. }
  destruct (first_free_frame (mapcounts s)) as [i|]; [|by injection Hrun as <- _].
  destruct (<[N.to_nat (pte_pfn e) := u32_dec c]> (mapcounts s) !! i);
    simpl in Hrun; [|done].
  injection Hrun as <- _. by apply write_pte_sched_ok.
Qed.

Lemma insert_tlb_sched_ok s vpn rw pfn : sched_ok s → sched_ok (insert_tlb s vpn rw pfn).
Proof.
  intros Hok. unfold insert_tlb.
  destruct (find_index (tlb_has vpn) (tlb s)) as [i|].
  - by destruct (tlb s !! i).
  - by destruct (find_index (λ e, negb (tlb_valid e)) (tlb s)).
Qed.

Lemma step_sched_ok s s' : sched_ok s → step s s' → sched_ok s'.
Proof.
  intros Hok [vpn rw pfn -> | fresh vpn rw r H | vpn H | vpn rw r H | junk pid' H].
  - by apply insert_tlb_sched_ok.
  - by eapply alloc_page_sched_ok.
  - by eapply free_page_sched_ok.
  - by eapply handle_page_fault_sched_ok.
  - by eapply switch_process_sched_ok.
Qed.

(** [sched_ok] holds after any sequence of calls from the boot state. *)
Lemma sched_ok_invariant s : rtc step boot_state s → sched_ok s.
Proof.
  intros Hrun. apply rtc_nsteps in Hrun as [n Hrun].
  revert s Hrun. induction n as [|n IH]; intros s Hrun.
  - inversion Hrun; subst.
    split; [done|]. split.
    { apply NoDup_singleton. }
    split.
    + intros a ->%list_elem_of_singleton. by eexists.
    + by intros a b p q ->%list_elem_of_singleton ->%list_elem_of_singleton.
  - apply nsteps_inv_r in Hrun as (s0 & Hrun & Hstep).
    eapply step_sched_ok; [by apply IH | done].
Qed.

(** With no directory for the vpn, [free_page] changes nothing. *)
Lemma free_page_without_directory s vpn p :
  heap s !! ptbr s = Some p →
  outer_ptes (proc_pagetable p) !! outer_pte_index vpn = Some None →
  free_page s vpn = Some s.
Proof. intros Hp Hd. unfold free_page. rewrite Hp. simpl. by rewrite Hd. Qed.

(** ** More on the TLB *)

Lemma find_index_insert {A} (p : A → bool) l i y :
  (∀ j x, (j < i)%nat → l !! j = Some x → p x = false) →
  (i < length l)%nat → p y = true →
  find_index p (<[i := y]> l) = Some i.
Proof.
  intros Hlt Hi Hy. apply find_index_Some. split.
  - exists y. split; [by apply list_lookup_insert_eq | done].
  - intros j x Hj Hx. rewrite list_lookup_insert_ne in Hx by lia. by eapply Hlt.
Qed.

Lemma find_index_insert_miss {A} (p : A → bool) l i x y :
  l !! i = Some x → p x = false → p y = false →
  find_index p (<[i := y]> l) = find_index p l.
Proof.
  revert i. induction l as [|a l IH]; intros i Hx Hpx Hpy; [done|].
  destruct i as [|i]; simpl in *.
  - injection Hx as ->. by rewrite Hpx, Hpy.
  - destruct (p a); [done|]. by rewrite (IH i).
Qed.

Lemma find_index_map {A} (p : A → bool) (g : A → A) l :
  (∀ x, p (g x) = p x) → find_index p (map g l) = find_index p l.
Proof.
  intros Hg. induction l as [|a l IH]; simpl; [done|]. by rewrite Hg, IH.
Qed.

Lemma sum_list_with_insert {A} (g : A → nat) l i x y :
  l !! i = Some x →
  (sum_list_with g (<[i := y]> l) + g x = sum_list_with g l + g y)%nat.
Proof.
  revert i. induction l as [|a l IH]; intros i Hx; [done|].
  destruct i as [|i]; simpl in *.
  - injection Hx as ->. lia.
  - specialize (IH i Hx). lia.
Qed.

Lemma sum_list_with_zero {A} (g : A → nat) l :
  (∀ x, x ∈ l → g x = 0%nat) → sum_list_with g l = 0%nat.
Proof.
  induction l as [|a l IH]; intros H; simpl; [done|].
  rewrite (H a), IH; [done | | left]. intros x Hx. apply H. by right.
Qed.

(** What [insert_tlb] does to the array: nothing, when there is no room;
    otherwise one slot [i], which held [x], now holds a valid entry for
    [vpn] with the given [rw] and [pfn], where [x] was the first valid
    entry for [vpn], or there was none and [x] was not valid. *)
Lemma insert_tlb_cases s vpn rw pfn :
  (¬ has_room (tlb s) vpn ∧ insert_tlb s vpn rw pfn = s) ∨
  ∃ i x, tlb s !! i = Some x ∧
    insert_tlb s vpn rw pfn = set_tlb s (<[i := mk_tlb true rw vpn pfn]> (tlb s)) ∧
    (∀ j e, (j < i)%nat → tlb s !! j = Some e → tlb_has vpn e = false) ∧
    (tlb_has vpn x = true ∨
     (tlb_valid x = false ∧ ∀ e, e ∈ tlb s → tlb_has vpn e = false)).
Proof.
  unfold insert_tlb.
  destruct (find_index (tlb_has vpn) (tlb s)) as [i|] eqn:Hfind.
  - right. apply find_index_Some in Hfind as [(e & He & Hp) Hlt].
    exists i, e. rewrite He. pose proof Hp as [Hv Hvpn]%tlb_has_true.
    rewrite Hv, Hvpn. repeat split; [done..|by left].
  - pose proof (proj1 (find_index_None _ _) Hfind) as Hnone.
    destruct (find_index (λ e, negb (tlb_valid e)) (tlb s)) as [i|] eqn:Hfree.
    + right. apply find_index_Some in Hfree as [(e & He & Hp) Hlt].
      exists i, e. repeat split; [done..| |].
      * intros j e' _ He'. apply Hnone, list_elem_of_lookup. by exists j.
      * right. split; [|done]. by destruct (tlb_valid e).
    + left. split; [|done]. intros [(e & He & Hv) | (e & He & Hv & Hvpn)].
      * assert (negb (tlb_valid e) = false) as Hn
          by (eapply find_index_None in Hfree; done).
        by rewrite Hv in Hn.
      * specialize (Hnone e He).
        rewrite (proj2 (tlb_has_true vpn e)) in Hnone; done.
Qed.

Lemma tlb_has_other vpn vpn' x :
  vpn' ≠ vpn → tlb_has vpn x = true ∨ tlb_valid x = false → tlb_has vpn' x = false.
Proof.
  intros Hne Hx. apply not_true_is_false. intros [Hv Hvpn]%tlb_has_true.
  destruct Hx as [[_ Hx]%tlb_has_true | Hx]; congruence.
Qed.

(** X1: the last insertion for a vpn wins: inserting for [vpn] twice
    in a row leaves the state the second insertion alone would leave. *)
Theorem insert_tlb_insert_tlb s vpn rw pfn rw' pfn' :
  insert_tlb (insert_tlb s vpn rw pfn) vpn rw' pfn' = insert_tlb s vpn rw' pfn'.
Proof.
  destruct (find_index (tlb_has vpn) (tlb s)) as [i|] eqn:Hfind.
  - pose proof (find_index_lt _ _ _ Hfind) as Hi.
    pose proof Hfind as [(e & He & Hp) Hlt]%find_index_Some.
    assert (insert_tlb s vpn rw pfn
            = set_tlb s (<[i := mk_tlb (tlb_valid e) rw (tlb_vpn e) pfn]> (tlb s))) as ->.
    { unfold insert_tlb. by rewrite Hfind, He. }
    unfold insert_tlb. simpl. rewrite Hfind, He.
    rewrite find_index_insert by done.
    rewrite list_lookup_insert_eq by done. unfold set_tlb. simpl.
    by rewrite list_insert_insert_eq.
  - pose proof (proj1 (find_index_None _ _) Hfind) as Hnone.
    destruct (find_index (λ e, negb (tlb_valid e)) (tlb s)) as [i|] eqn:Hfree.
    + pose proof (find_index_lt _ _ _ Hfree) as Hi.
      assert (insert_tlb s vpn rw pfn
              = set_tlb s (<[i := mk_tlb true rw vpn pfn]> (tlb s))) as ->.
      { unfold insert_tlb. by rewrite Hfind, Hfree. }
      unfold insert_tlb. simpl. rewrite Hfind, Hfree.
      rewrite find_index_insert; [| |done|].
      * rewrite list_lookup_insert_eq by done. unfold set_tlb. simpl.
        by rewrite list_insert_insert_eq.
      * intros j x _ Hx. apply Hnone, list_elem_of_lookup. by exists j.
      * apply tlb_has_true. simpl. done.
    + assert (insert_tlb s vpn rw pfn = s) as ->; [|done].
      unfold insert_tlb. by rewrite Hfind, Hfree.
Qed.

(** X2: an insertion for [vpn] does not change what a lookup of any
    other vpn returns, whatever the access. *)
Theorem insert_tlb_lookup_tlb_other s vpn rw pfn vpn' rw' :
  vpn' ≠ vpn →
  lookup_tlb (insert_tlb s vpn rw pfn) vpn' rw' = lookup_tlb s vpn' rw'.
Proof.
  intros Hne.
  destruct (insert_tlb_cases s vpn rw pfn)
    as [[_ ->] | (i & x & Hx & -> & _ & Hwas)]; [done|].
  assert (tlb_hit vpn' rw' x = false) as Hxmiss.
  { apply tlb_has_false_hit, (tlb_has_other vpn); [done|]. tauto. }
  assert (tlb_hit vpn' rw' (mk_tlb true rw vpn pfn) = false) as Hymiss.
  { apply tlb_has_false_hit, (tlb_has_other vpn); [done|]. left.
    by apply tlb_has_true. }
  unfold lookup_tlb. simpl.
  rewrite (find_index_insert_miss _ _ _ x) by done.
  destruct (find_index (tlb_hit vpn' rw') (tlb s)) as [k|] eqn:Hk; [|done].
  simpl. apply find_index_Some in Hk as [(z & Hz & Hp) _].
  rewrite list_lookup_insert_ne; [done|]. intros ->. congruence.
Qed.

(** X3: [insert_tlb] never makes a second entry for a vpn: when there is
    room, the number of valid entries for [vpn] is afterwards what it was,
    or 1 if there was none; the number of valid entries for any other vpn
    is what it was; the array keeps its size. *)
Theorem insert_tlb_no_duplicate s vpn rw pfn :
  has_room (tlb s) vpn →
  tlb_count vpn (tlb (insert_tlb s vpn rw pfn)) = Nat.max 1 (tlb_count vpn (tlb s)) ∧
  (∀ vpn', vpn' ≠ vpn →
     tlb_count vpn' (tlb (insert_tlb s vpn rw pfn)) = tlb_count vpn' (tlb s)) ∧
  length (tlb (insert_tlb s vpn rw pfn)) = length (tlb s).
Proof.
  intros Hroom.
  destruct (insert_tlb_cases s vpn rw pfn)
    as [[Hno _] | (i & x & Hx & -> & _ & Hwas)]; [done|].
  simpl. split; [|split].
  - unfold tlb_count.
    pose proof (sum_list_with_insert
                  (λ e, if tlb_has vpn e then 1%nat else 0%nat)
                  (tlb s) i x (mk_tlb true rw vpn pfn) Hx) as Hsum.
    simpl in Hsum. rewrite (proj2 (tlb_has_true vpn (mk_tlb true rw vpn pfn))) in Hsum
      by done.
    destruct Hwas as [Hhas | [Hv Hnone]].
    + rewrite Hhas in Hsum.
      assert (1 ≤ sum_list_with (λ e, if tlb_has vpn e then 1 else 0) (tlb s))%nat.
      { pose proof (sum_list_with_in x (λ e, if tlb_has vpn e then 1%nat else 0%nat)
                      (tlb s)) as Hin.
        cbv beta in Hin. rewrite Hhas in Hin.
        apply Hin, list_elem_of_lookup. by exists i. }
      lia.
    + assert (tlb_has vpn x = false) as Hx0.
      { apply Hnone, list_elem_of_lookup. by exists i. }
      rewrite Hx0 in Hsum.
      assert (sum_list_with (λ e, if tlb_has vpn e then 1%nat else 0%nat) (tlb s)
              = 0%nat) as Hold.
      { apply sum_list_with_zero. intros e He. by rewrite Hnone. }
      lia.
  - intros vpn' Hne. unfold tlb_count.
    pose proof (sum_list_with_insert
                  (λ e, if tlb_has vpn' e then 1%nat else 0%nat)
                  (tlb s) i x (mk_tlb true rw vpn pfn) Hx) as Hsum.
    simpl in Hsum.
    rewrite (tlb_has_other vpn vpn' x) in Hsum by tauto.
    rewrite (tlb_has_other vpn vpn' (mk_tlb true rw vpn pfn)) in Hsum; [lia|done|].
    left. by apply tlb_has_true.
  - apply length_insert.
Qed.

(** X4: with no invalid slot and no valid entry for [vpn], [insert_tlb]
    changes nothing: the translation is not cached. *)
Theorem insert_tlb_no_room s vpn rw pfn :
  ¬ has_room (tlb s) vpn → insert_tlb s vpn rw pfn = s.
Proof.
  intros Hno.
  destruct (insert_tlb_cases s vpn rw pfn)
    as [[_ ->] | (i & x & Hx & _ & _ & Hwas)]; [done|].
  exfalso. apply Hno. destruct Hwas as [[Hv Hvpn]%tlb_has_true | [Hv _]].
  - right. exists x. split; [apply list_elem_of_lookup; by exists i | done].
  - left. exists x. split; [apply list_elem_of_lookup; by exists i | done].
Qed.

(** ** More on [free_page], [alloc_page] and [handle_page_fault] *)

Lemma write_pte_same_pages_but s p vpn d e mc t :
  heap s !! ptbr s = Some p →
  outer_ptes (proc_pagetable p) !! outer_pte_index vpn = Some (Some d) →
  is_Some (d !! pte_index vpn) →
  same_pages_but s (write_pte s p (outer_pte_index vpn) d (pte_index vpn) e mc t) vpn.
Proof.
  intros Hp Hd Hpte. unfold same_pages_but. repeat split; try done.
  - intros a Ha. unfold write_pte. simpl. by apply list_lookup_insert_ne.
  - intros p0 Hp0. assert (p0 = p) as -> by congruence.
    eexists. split.
    { unfold write_pte. simpl. apply list_lookup_insert_eq. by eapply lookup_lt_Some. }
    split; [done|].
    intros vpn' Hne. unfold pte_of. simpl.
    destruct (decide (outer_pte_index vpn' = outer_pte_index vpn)) as [Ho|Ho].
    + rewrite Ho, Hd, list_lookup_insert_eq by by eapply lookup_lt_Some.
      simpl. apply list_lookup_insert_ne. intros Hi.
      apply Hne. by apply vpn_index_inj.
    + by rewrite list_lookup_insert_ne.
Qed.

Lemma write_pte_read_any s p vpn d e mc t :
  heap s !! ptbr s = Some p →
  is_Some (outer_ptes (proc_pagetable p) !! outer_pte_index vpn) →
  is_Some (d !! pte_index vpn) →
  read_pte (write_pte s p (outer_pte_index vpn) d (pte_index vpn) e mc t) vpn = Some e.
Proof.
  intros Hp Hslot Hpte. apply read_pte_Some. eexists _, _. split.
  { unfold write_pte. simpl. apply list_lookup_insert_eq. by eapply lookup_lt_Some. }
  simpl. split; apply list_lookup_insert_eq; by apply lookup_lt_is_Some.
Qed.

Lemma free_page_Some s vpn p d e c :
  heap s !! ptbr s = Some p →
  outer_ptes (proc_pagetable p) !! outer_pte_index vpn = Some (Some d) →
  d !! pte_index vpn = Some e →
  mapcounts s !! N.to_nat (pte_pfn e) = Some c →
  free_page s vpn =
    Some (write_pte s p (outer_pte_index vpn) d (pte_index vpn) (mk_pte false 0 0 0)
            (<[N.to_nat (pte_pfn e) := u32_dec c]> (mapcounts s))
            (map (λ x, if tlb_has vpn x then tlb_cleared else x) (tlb s))).
Proof.
  intros Hp Hd He Hc. unfold free_page. rewrite Hp. simpl. rewrite Hd. simpl.
  rewrite He. simpl. by rewrite Hc.
Qed.

(** X5: when the directory of the vpn is there, [free_page] resets the
    entry to invalid with [rw], [pfn] and [private] 0 and takes one (as an
    [unsigned int]) from the count of the frame the entry named, whatever
    the valid flag of the entry was; every other entry of every page
    table, the ready queue, [current] and [ptbr] are as before. *)
Theorem free_page_unmaps s vpn e c :
  read_pte s vpn = Some e →
  mapcounts s !! N.to_nat (pte_pfn e) = Some c →
  ∃ s', free_page s vpn = Some s' ∧
        read_pte s' vpn = Some (mk_pte false 0 0 0) ∧
        mapcounts s' = <[N.to_nat (pte_pfn e) := u32_dec c]> (mapcounts s) ∧
        (0 < c → c ≤ UINT_MAX → mapcounts s' !! N.to_nat (pte_pfn e) = Some (c - 1)) ∧
        same_pages_but s s' vpn.
Proof.
  intros (p & d & Hp & Hd & He)%read_pte_Some Hc.
  eexists. split; [by eapply free_page_Some|].
  split; [apply write_pte_read_any; by eauto|]. split; [done|]. split.
  - intros H0 H1. simpl. rewrite list_lookup_insert_eq by by eapply lookup_lt_Some.
    by rewrite u32_dec_pred.
  - apply write_pte_same_pages_but; by eauto.
Qed.

(** X6: when the directory of the vpn is there, no lookup of the vpn
    hits after [free_page], whatever the access, and no valid entry for
    it is left; the lookups of every other vpn return what they returned
    before. *)
Theorem free_page_clears_tlb s vpn e c :
  read_pte s vpn = Some e →
  mapcounts s !! N.to_nat (pte_pfn e) = Some c →
  ∃ s', free_page s vpn = Some s' ∧
        (∀ rw, lookup_tlb s' vpn rw = None) ∧
        tlb_count vpn (tlb s') = 0%nat ∧
        (∀ vpn' rw, vpn' ≠ vpn → lookup_tlb s' vpn' rw = lookup_tlb s vpn' rw).
Proof.
  intros (p & d & Hp & Hd & He)%read_pte_Some Hc.
  eexists. split; [by eapply free_page_Some|]. simpl.
  assert (∀ x, tlb_has vpn (if tlb_has vpn x then tlb_cleared else x) = false) as Hgone.
  { intros x. destruct (tlb_has vpn x) eqn:Hx; [|done].
    unfold tlb_has. simpl. apply andb_false_r. }
  split; [|split].
  - intros rw. unfold lookup_tlb. simpl.
    assert (find_index (tlb_hit vpn rw)
              (map (λ x, if tlb_has vpn x then tlb_cleared else x) (tlb s)) = None) as ->;
      [|done].
    apply find_index_None. intros y (x & -> & _)%list_elem_of_fmap.
    apply tlb_has_false_hit, Hgone.
  - unfold tlb_count. apply sum_list_with_zero.
    intros y (x & -> & _)%list_elem_of_fmap. by rewrite Hgone.
  - intros vpn' rw Hne. unfold lookup_tlb. simpl.
    assert (∀ x, tlb_hit vpn' rw x = true → tlb_has vpn x = false) as Hkeep.
    { intros x (Hv & Hvpn & _)%tlb_hit_true. apply not_true_is_false.
      intros [_ Hx]%tlb_has_true. congruence. }
    rewrite find_index_map.
    + destruct (find_index (tlb_hit vpn' rw) (tlb s)) as [k|] eqn:Hk; [|done].
      simpl. apply find_index_Some in Hk as [(x & Hx & Hhit) _].
      change (map ?f ?l) with (f <$> l). rewrite list_lookup_fmap, Hx. simpl.
      by rewrite (Hkeep x Hhit).
    + intros x. destruct (tlb_has vpn x) eqn:Hx; [|done].
      symmetry. apply not_true_is_false. intros Hhit%Hkeep. congruence.
Qed.

(** X7: [alloc_page] followed by [free_page] of the same vpn: when some
    frame is free, the allocation succeeds, the deallocation that follows
    leaves the vpn with an invalid entry and [mapcounts] exactly as it
    was before the allocation. *)
Theorem alloc_page_free_page fresh s vpn rw p slot :
  heap s !! ptbr s = Some p →
  outer_ptes (proc_pagetable p) !! outer_pte_index vpn = Some slot →
  is_Some (default fresh slot !! pte_index vpn) →
  some_free (mapcounts s) →
  ∃ i s1 s2, lowest_free (mapcounts s) i ∧
               alloc_page fresh s vpn rw = Some (s1, N.of_nat i) ∧
               free_page s1 vpn = Some s2 ∧
               read_pte s2 vpn = Some (mk_pte false 0 0 0) ∧
               mapcounts s2 = mapcounts s.
Proof.
  intros Hp Hslot Hpte (i & Hlow)%some_free_lowest.
  pose proof Hlow as (Hi & Hzero & _).
  pose proof (lookup_lt_Some _ _ _ Hzero) as Hlen.
  pose proof (lookup_lt_Some _ _ _ Hp) as Hptbr.
  pose proof (lookup_lt_Some _ _ _ Hslot) as Houter.
  set (e1 := mk_pte true rw (N.of_nat i) rw).
  set (s1 := write_pte s p (outer_pte_index vpn) (default fresh slot) (pte_index vpn)
               e1 (<[i := 1]> (mapcounts s)) (tlb s)).
  assert (free_page s1 vpn =
          Some (write_pte s1 (mk_process (pid p)
                  (mk_pagetable (<[outer_pte_index vpn :=
                                     Some (<[pte_index vpn := e1]> (default fresh slot))]>
                                   (outer_ptes (proc_pagetable p)))))
                  (outer_pte_index vpn) (<[pte_index vpn := e1]> (default fresh slot))
                  (pte_index vpn) (mk_pte false 0 0 0)
                  (<[N.to_nat (pte_pfn e1) := u32_dec 1]> (mapcounts s1))
                  (map (λ x, if tlb_has vpn x then tlb_cleared else x) (tlb s1)))) as Hfree.
  { apply free_page_Some with (e := e1).
    - subst s1. unfold write_pte. simpl. by apply list_lookup_insert_eq.
    - simpl. by apply list_lookup_insert_eq.
    - apply list_lookup_insert_eq. by apply lookup_lt_is_Some.
    - simpl. rewrite Nat2N.id. by apply list_lookup_insert_eq. }
  exists i, s1. eexists. split; [done|]. split; [by eapply alloc_page_Some|].
  split; [exact Hfree|]. split.
  - apply write_pte_read_any.
    + subst s1. unfold write_pte. simpl. by apply list_lookup_insert_eq.
    + simpl. apply lookup_lt_is_Some. by rewrite length_insert.
    + apply lookup_lt_is_Some. rewrite length_insert. by apply lookup_lt_is_Some.
  - simpl. rewrite Nat2N.id, list_insert_insert_eq. by apply list_insert_id.
Qed.

(** X8: [handle_page_fault] resolves nothing but a write to a valid,
    read-only entry with a read-write ceiling: for an entry that is
    invalid, for a request other than write, for an entry whose [private]
    is not read-write, and for an entry whose [rw] is not read-only (it
    is writable already), it returns false and the state is as before. *)
Theorem handle_page_fault_refuses s vpn rw e :
  read_pte s vpn = Some e →
  pte_valid e = false ∨ rw ≠ ACCESS_WRITE ∨
    pte_private e ≠ ACCESS_READ + ACCESS_WRITE ∨ pte_rw e ≠ ACCESS_READ →
  handle_page_fault s vpn rw = Some (s, false).
Proof.
  intros (p & d & Hp & Hd & He)%read_pte_Some Hwhy.
  unfold handle_page_fault. rewrite Hp. simpl. rewrite Hd. simpl. rewrite He. simpl.
  assert (pte_valid e && (rw =? ACCESS_WRITE)
          && (pte_private e =? ACCESS_WRITE + ACCESS_READ)
          && (pte_rw e =? ACCESS_READ) = false) as ->; [|done].
  apply not_true_is_false.
  rewrite !andb_true_iff, !N.eqb_eq. intros [[[Hv Hrw] Hpriv] Hro].
  destruct Hwhy as [Hw | [Hw | [Hw | Hw]]]; [congruence | done | | done].
  apply Hw. rewrite Hpriv. done.
Qed.

(** ** More on [switch_process] *)

Lemma list_del_app a q1 q2 : list_del a (q1 ++ q2) = list_del a q1 ++ list_del a q2.
Proof.
  induction q1 as [|b q1 IH]; simpl; [done|].
  destruct (b =? a)%nat; [done|]. simpl. by rewrite IH.
Qed.

Lemma length_list_del a q :
  NoDup q → a ∈ q → S (length (list_del a q)) = length q.
Proof.
  induction 1 as [|b q Hb Hnd IH]; [by intros ?%elem_of_nil|].
  intros [->|Ha]%elem_of_cons; simpl.
  - rewrite Nat.eqb_refl. by rewrite list_del_notin.
  - destruct (Nat.eqb_spec b a) as [->|_]; [done|]. simpl. by rewrite IH.
Qed.

Lemma find_pid_found h q a p :
  (∀ b, b ∈ q → is_Some (h !! b)) →
  (∀ b pb, b ∈ q → h !! b = Some pb → pid pb = pid p → b = a) →
  a ∈ q → h !! a = Some p →
  find_pid h q (pid p) = Some (Some a).
Proof.
  intros Halloc Huniq Ha Hp. induction q as [|b q IH]; [by apply elem_of_nil in Ha|].
  simpl. destruct (Halloc b) as [pb Hpb]; [left|]. rewrite Hpb. simpl.
  destruct (N.eqb_spec (pid pb) (pid p)) as [Heq|Hne].
  - do 2 f_equal. eapply Huniq; [left | done | done].
  - apply IH.
    + intros c Hc. apply Halloc. by right.
    + intros c pc Hc. apply Huniq. by right.
    + apply elem_of_cons in Ha as [->|Ha]; [|done]. congruence.
Qed.

Lemma find_pid_total h q pid' :
  (∀ b, b ∈ q → is_Some (h !! b)) → is_Some (find_pid h q pid').
Proof.
  induction q as [|b q IH]; intros Halloc; simpl; [done|].
  destruct (Halloc b) as [pb ->]; [left|]. simpl.
  destruct (pid pb =? pid'); [done|]. apply IH. intros c Hc. apply Halloc. by right.
Qed.

(** X9: a switch to a process of the ready queue.  In a scheduler state
    as the code keeps it, [switch_process] with the pid of a queued
    process makes that process [current], points [ptbr] at its page
    table, takes it out of the queue and puts the process that was
    running at the end; the queue keeps its length, and no page table and
    no count changes. *)
Theorem switch_process_to_ready junk s a p :
  sched_ok s →
  a ∈ processes s →
  heap s !! a = Some p →
  ∃ s', switch_process junk s (pid p) = Some s' ∧
        current s' = a ∧ ptbr s' = a ∧
        processes s' = list_del a (processes s) ++ [current s] ∧
        (a ∉ processes s') ∧
        length (processes s') = length (processes s) ∧
        heap s' = heap s ∧ mapcounts s' = mapcounts s.
Proof.
  intros (Hptbr & Hnd & Halloc & Hpids) Ha Hp.
  apply NoDup_cons in Hnd as [Hcur Hq].
  assert (find_pid (heap s) (processes s) (pid p) = Some (Some a)) as Hfind.
  { apply find_pid_found; [|intros b pb Hb Hpb Heq|done..].
    - intros b Hb. apply Halloc. by right.
    - eapply Hpids; [by right | by right | done..]. }
  assert (current s ≠ a) as Hne by (intros Heq; by rewrite Heq in Hcur).
  assert (list_del a (list_add_tail (current s) (processes s))
          = list_del a (processes s) ++ [current s]) as Hqueue.
  { unfold list_add_tail. rewrite list_del_app. simpl.
    by destruct (Nat.eqb_spec (current s) a). }
  eexists. split.
  { unfold switch_process. rewrite Hfind. simpl. rewrite Hp. simpl.
    rewrite N.eqb_refl, list_del_entry_in, Hqueue.
    - reflexivity.
    - unfold list_add_tail. apply elem_of_app. by left. }
  simpl. repeat split; try done.
  - intros [Hin|Hin]%elem_of_app.
    + apply elem_of_list_del in Hin as [_ ?]. done.
    + apply list_elem_of_singleton in Hin. done.
  - rewrite length_app. simpl. rewrite Nat.add_1_r. by apply length_list_del.
Qed.

Lemma switch_process_fork_Some junk s pid' parent :
  ptbr s = current s →
  heap s !! current s = Some parent →
  pid parent ≠ pid' →
  (∀ a, a ∈ processes s → ∃ p, heap s !! a = Some p ∧ pid p ≠ pid') →
  pagetable_ok (proc_pagetable parent) = true →
  frames_in_range (mapcounts s) (proc_pagetable parent) = true →
  ∃ mc', switch_process junk s pid' =
           Some (mk_state
                   (<[current s := mk_process (pid parent)
                        (mk_pagetable (map (option_map (map cow_downgrade))
                                           (outer_ptes (proc_pagetable parent))))]> (heap s)
                      ++ [mk_process pid'
                            (mk_pagetable (imap (child_slot junk)
                                                (outer_ptes (proc_pagetable parent))))])
                   (processes s ++ [current s]) (length (heap s)) (length (heap s))
                   (map (λ _, tlb_cleared) (tlb s)) mc') ∧
         length mc' = length (mapcounts s) ∧
         ∀ f c, mapcounts s !! f = Some c →
                mc' !! f = Some (u32_add c (count_pagetable (N.of_nat f)
                                              (proc_pagetable parent))).
Proof.
  intros Hptbr Hparent Hpid Hqueue%find_pid_None [Hlen Hdirs]%pagetable_ok_sizes Hrange.
  destruct (fork_directory_loop junk (outer_ptes (proc_pagetable parent))
              (mapcounts s) NR_PTES_PER_PAGE) as (mc' & Hloop & Hmclen & Hmc).
  { by rewrite Hlen. }
  { done. }
  { intros i d j e. by apply frames_in_range_lt. }
  rewrite take_ge, drop_ge, app_nil_r in Hloop by by rewrite Hlen.
  rewrite take_ge in Hmc by by rewrite Hlen.
  exists mc'. split; [|by split].
  unfold switch_process. rewrite Hqueue. simpl. rewrite Hparent. simpl.
  rewrite (proj2 (N.eqb_neq _ _) Hpid), Hptbr, Hparent. simpl.
  rewrite Hloop. simpl. reflexivity.
Qed.

(** X10: in a scheduler state as the code keeps it, with the arrays of
    the current page table of their declared sizes and its valid entries
    on frames that have a counter, [switch_process] returns for every
    pid other than the pid of [current], whether it switches or forks;
    afterwards every TLB entry is the cleared entry, the TLB has its
    size, no lookup hits, whatever the vpn and the access, and the
    scheduler state is again as the code keeps it. *)
Theorem switch_process_flushes junk s pid' c :
  sched_ok s →
  heap s !! current s = Some c →
  pid c ≠ pid' →
  pagetable_ok (proc_pagetable c) = true →
  frames_in_range (mapcounts s) (proc_pagetable c) = true →
  ∃ s', switch_process junk s pid' = Some s' ∧
        tlb s' = map (λ _, tlb_cleared) (tlb s) ∧
        (∀ vpn rw, lookup_tlb s' vpn rw = None) ∧
        sched_ok s'.
Proof.
  intros Hok Hc Hne Hpt Hrange.
  assert (∃ s', switch_process junk s pid' = Some s' ∧
                tlb s' = map (λ _, tlb_cleared) (tlb s)) as (s' & Hrun & Htlb).
  { pose proof Hok as (Hptbr & Hnd & Halloc & Hpids).
    destruct (find_pid_total (heap s) (processes s) pid') as [[a|] Hfind].
    { intros b Hb. apply Halloc. by right. }
    - pose proof Hfind as (Ha & p & Hp & Hpid)%find_pid_Some.
      exists (mk_state (heap s)
                (list_del a (list_add_tail (current s) (processes s)))
                a a (map (λ _, tlb_cleared) (tlb s)) (mapcounts s)).
      split; [|done].
      unfold switch_process. rewrite Hfind. simpl. rewrite Hp. simpl.
      rewrite Hpid, N.eqb_refl, list_del_entry_in; [done|].
      unfold list_add_tail. apply elem_of_app. by left.
    - destruct (switch_process_fork_Some junk s pid' c) as (mc' & Hrun & _);
        [done.. | by apply find_pid_None | done | done |].
      eexists. split; [exact Hrun | done]. }
  exists s'. split; [done|]. split; [done|]. split.
  - intros vpn rw. unfold lookup_tlb. rewrite Htlb.
    assert (find_index (tlb_hit vpn rw) (map (λ _, tlb_cleared) (tlb s)) = None) as ->;
      [|done].
    apply find_index_None. by intros y (x & -> & _)%list_elem_of_fmap.
  - by eapply switch_process_sched_ok.
Qed.

(** X11: after a fork neither the parent nor the child has a read-write
    entry: every entry of the parent's page table, and every entry of
    the child's when the block of the child held no directory pointer,
    has [rw] other than read-write. *)
Theorem switch_process_fork_read_only junk s pid' parent :
  ptbr s = current s →
  heap s !! current s = Some parent →
  pid parent ≠ pid' →
  (∀ a, a ∈ processes s → ∃ p, heap s !! a = Some p ∧ pid p ≠ pid') →
  pagetable_ok (proc_pagetable parent) = true →
  frames_in_range (mapcounts s) (proc_pagetable parent) = true →
  (∀ i, junk i = None) →
  ∃ s' parent' child,
    switch_process junk s pid' = Some s' ∧
    heap s' !! current s = Some parent' ∧
    heap s' !! current s' = Some child ∧
    ∀ vpn e, pte_of parent' vpn = Some e ∨ pte_of child vpn = Some e →
             pte_rw e ≠ ACCESS_READ + ACCESS_WRITE.
Proof.
  intros Hptbr Hparent Hpid Hqueue Hpt Hrange Hjunk.
  destruct (switch_process_fork_Some junk s pid' parent) as (mc' & Hrun & _); [done..|].
  pose proof (lookup_lt_Some _ _ _ Hparent) as Hcur.
  eexists _, _, _. split; [exact Hrun|]. simpl. split.
  { rewrite lookup_app_l by by rewrite length_insert.
    by apply list_lookup_insert_eq. }
  split.
  { rewrite lookup_app_r by by rewrite length_insert.
    by rewrite length_insert, Nat.sub_diag. }
  assert (∀ e, pte_rw (cow_downgrade e) ≠ ACCESS_READ + ACCESS_WRITE) as Hcow.
  { intros e. unfold cow_downgrade.
    destruct (N.eqb_spec (pte_rw e) (ACCESS_READ + ACCESS_WRITE)); [|done].
    simpl. discriminate. }
  intros vpn e [(d & Hd & He)%pte_of_Some | (d & Hd & He)%pte_of_Some];
    simpl in Hd.
  - change (map ?f ?l) with (f <$> l) in Hd. rewrite list_lookup_fmap in Hd.
    destruct (outer_ptes (proc_pagetable parent) !! outer_pte_index vpn)
      as [[d0|]|]; simpl in Hd; [|done..].
    injection Hd as <-. change (map ?f ?l) with (f <$> l) in He.
    rewrite list_lookup_fmap in He.
    destruct (d0 !! pte_index vpn); simpl in He; [|done]. injection He as <-.
    apply Hcow.
  - rewrite list_lookup_imap in Hd.
    destruct (outer_ptes (proc_pagetable parent) !! outer_pte_index vpn)
      as [[d0|]|]; simpl in Hd; [| by rewrite Hjunk in Hd | done].
    injection Hd as <-. change (map ?f ?l) with (f <$> l) in He.
    rewrite list_lookup_fmap in He.
    destruct (d0 !! pte_index vpn); simpl in He; [|done]. injection He as <-.
    apply Hcow.
Qed.

(** ** Where the reference counts are kept right *)

Lemma refcount_ok_true s :
  refcount_ok s = true ↔
  ∀ i, (i < NR_PAGEFRAMES)%nat →
       mapcounts s !! i = Some (N.of_nat (count_mappings (N.of_nat i) s)).
Proof.
  unfold refcount_ok. rewrite List.forallb_forall. split.
  - intros H i Hi. eapply bool_decide_eq_true_1, H. apply in_seq. lia.
  - intros H i [_ Hi]%in_seq. apply bool_decide_eq_true_2, H. lia.
Qed.

Lemma counts_in_range_lookup mc i c :
  counts_in_range mc = true → mc !! i = Some c → c ≤ UINT_MAX.
Proof.
  unfold counts_in_range. rewrite List.forallb_forall. intros H Hc.
  apply N.leb_le, H, list_elem_of_In, list_elem_of_lookup. by exists i.
Qed.

Lemma counts_in_range_insert mc i c :
  counts_in_range mc = true → c ≤ UINT_MAX → counts_in_range (<[i := c]> mc) = true.
Proof.
  unfold counts_in_range. rewrite !List.forallb_forall. intros H Hc x Hx.
  apply list_elem_of_In, list_elem_of_lookup in Hx as [j Hj].
  destruct (decide (i = j)) as [->|Hne].
  - rewrite list_lookup_insert_eq in Hj by (by eapply lookup_lt_Some in Hj;
      rewrite length_insert in Hj).
    injection Hj as <-. by apply N.leb_le.
  - rewrite list_lookup_insert_ne in Hj by done.
    apply H, list_elem_of_In, list_elem_of_lookup. by exists j.
Qed.

Lemma u32_inc_le c : u32_inc c ≤ UINT_MAX.
Proof.
  unfold u32_inc, UINT_MAX.
  pose proof (N.mod_upper_bound (c + 1) 4294967296). lia.
Qed.

Lemma u32_dec_le c : u32_dec c ≤ UINT_MAX.
Proof.
  unfold u32_dec, UINT_MAX.
  pose proof (N.mod_upper_bound (c + 4294967295) 4294967296). lia.
Qed.

Lemma count_directory_sum f d : count_directory f d = sum_list_with (mapping f) d.
Proof.
  unfold count_directory, mapping. induction d as [|e d IH]; simpl; [done|].
  destruct (maps_frame f e); simpl; by rewrite IH.
Qed.

Lemma count_directory_insert f d j e e' :
  d !! j = Some e →
  (count_directory f (<[j := e']> d) + mapping f e
   = count_directory f d + mapping f e')%nat.
Proof. intros He. rewrite !count_directory_sum. by apply sum_list_with_insert. Qed.

Lemma count_mappings_write_pte f s p i o d j e mc t :
  heap s !! ptbr s = Some p →
  outer_ptes (proc_pagetable p) !! i = Some o →
  (count_mappings f (write_pte s p i d j e mc t) + from_option (count_directory f) 0 o
   = count_mappings f s + count_directory f (<[j := e]> d))%nat.
Proof.
  intros Hp Ho. unfold count_mappings, write_pte. simpl.
  pose proof (sum_list_with_insert (λ q, count_pagetable f (proc_pagetable q))
                (heap s) (ptbr s) p
                (mk_process (pid p)
                   (mk_pagetable (<[i := Some (<[j := e]> d)]>
                                    (outer_ptes (proc_pagetable p))))) Hp) as Hheap.
  pose proof (sum_list_with_insert (from_option (count_directory f) 0%nat)
                (outer_ptes (proc_pagetable p)) i o (Some (<[j := e]> d)) Ho) as Houter.
  unfold count_pagetable in *. simpl in *.
  apply (Nat.add_cancel_r _ _
           (sum_list_with (from_option (count_directory f) 0%nat)
              (outer_ptes (proc_pagetable p)))).
  rewrite <- Nat.add_assoc, (Nat.add_comm (from_option _ _ o)), Nat.add_assoc, Hheap.
  rewrite <- !Nat.add_assoc. f_equal.
  rewrite Houter. apply Nat.add_comm.
Qed.

Lemma count_mappings_replace f s p vpn d e0 e mc t :
  heap s !! ptbr s = Some p →
  outer_ptes (proc_pagetable p) !! outer_pte_index vpn = Some (Some d) →
  d !! pte_index vpn = Some e0 →
  (count_mappings f (write_pte s p (outer_pte_index vpn) d (pte_index vpn) e mc t)
     + mapping f e0
   = count_mappings f s + mapping f e)%nat.
Proof.
  intros Hp Hd He0.
  pose proof (count_mappings_write_pte f s p _ _ d (pte_index vpn) e mc t Hp Hd) as H1.
  pose proof (count_directory_insert f d (pte_index vpn) e0 e He0) as H2.
  simpl in H1. lia.
Qed.

Lemma mapping_index f e :
  mapping (N.of_nat f) e
  = if pte_valid e && bool_decide (N.to_nat (pte_pfn e) = f) then 1%nat else 0%nat.
Proof. unfold mapping. by rewrite maps_frame_index. Qed.

Lemma count_mappings_pos s vpn e :
  read_pte s vpn = Some e → pte_valid e = true →
  (1 ≤ count_mappings (pte_pfn e) s)%nat.
Proof.
  intros (p & d & Hp & Hd & He)%read_pte_Some Hv.
  pose proof (count_mappings_replace (pte_pfn e) s p vpn d e (mk_pte false 0 0 0)
                (mapcounts s) (tlb s) Hp Hd He) as H.
  unfold mapping, maps_frame in H. simpl in H. rewrite Hv, N.eqb_refl in H.
  simpl in H. lia.
Qed.

(** X12: [handle_page_fault] keeps the reference counts right.  When
    every frame below [NR_PAGEFRAMES] has as its count the number of
    valid entries that map it, every counter holds an [unsigned int] and
    the entry for the vpn names a frame that has a counter, the call
    returns, and both still hold afterwards, whether the fault is
    resolved in place, by a new frame, or refused. *)
Theorem handle_page_fault_keeps_refcount s vpn rw e :
  refcount_ok s = true →
  counts_in_range (mapcounts s) = true →
  read_pte s vpn = Some e →
  (N.to_nat (pte_pfn e) < length (mapcounts s))%nat →
  ∃ s' r, handle_page_fault s vpn rw = Some (s', r) ∧
          refcount_ok s' = true ∧
          counts_in_range (mapcounts s') = true.
Proof.
  intros Hinv Hrange Hread Hpfn.
  pose proof Hread as (p & d & Hp & Hd & He)%read_pte_Some.
  destruct (lookup_lt_is_Some_2 _ _ Hpfn) as [c Hc].
  unfold handle_page_fault. rewrite Hp. simpl. rewrite Hd. simpl. rewrite He. simpl.
  destruct (pte_valid e && (rw =? ACCESS_WRITE)
            && (pte_private e =? ACCESS_WRITE + ACCESS_READ)
            && (pte_rw e =? ACCESS_READ)) eqn:Hcond; [|by eexists _, _].
  apply andb_true_iff in Hcond as [[[Hv _]%andb_true_iff _]%andb_true_iff _].
  rewrite Hc. simpl.
  destruct (N.eqb_spec c 1) as [->|Hc1].
  { eexists _, _. split; [done|]. split; [|done].
    apply refcount_ok_true. intros f Hf. simpl.
    pose proof (count_mappings_replace (N.of_nat f) s p vpn d e
                  (mk_pte (pte_valid e) (ACCESS_READ + ACCESS_WRITE)
                          (pte_pfn e) (pte_private e))
                  (mapcounts s) (tlb s) Hp Hd He) as Hcount.
    rewrite !mapping_index in Hcount. simpl in Hcount.
    rewrite (proj1 (refcount_ok_true s) Hinv f Hf). do 2 f_equal. lia. }
  destruct (first_free_frame (mapcounts s)) as [i|] eqn:Hfree; [|by eexists _, _].
  apply first_free_frame_Some in Hfree as (Hi & Hzero & _).
  pose proof (count_mappings_pos s vpn e Hread Hv) as Hpos.
  assert (i ≠ N.to_nat (pte_pfn e)) as Hne.
  { intros ->. pose proof (proj1 (refcount_ok_true s) Hinv _ Hi) as Hold.
    rewrite N2Nat.id, Hzero in Hold. injection Hold as Hold. lia. }
  rewrite list_lookup_insert_ne, Hzero by done. simpl.
  eexists _, _. split; [done|]. simpl. split.
  - apply refcount_ok_true. intros f Hf. simpl.
    pose proof (count_mappings_replace (N.of_nat f) s p vpn d e
                  (mk_pte (pte_valid e) (ACCESS_READ + ACCESS_WRITE)
                          (N.of_nat i) (pte_private e))
                  (<[i := u32_inc 0]> (<[N.to_nat (pte_pfn e) := u32_dec c]> (mapcounts s)))
                  (tlb s) Hp Hd He) as Hcount.
    rewrite !mapping_index in Hcount. simpl in Hcount.
    rewrite Hv, Nat2N.id in Hcount. simpl in Hcount. rewrite Hv.
    pose proof (proj1 (refcount_ok_true s) Hinv f Hf) as Hold.
    destruct (decide (f = i)) as [->|Hfi].
    + rewrite list_lookup_insert_eq
        by (rewrite length_insert; by eapply lookup_lt_Some).
      rewrite (bool_decide_eq_true_2 (i = i)) in Hcount by done.
      rewrite (bool_decide_eq_false_2 (N.to_nat (pte_pfn e) = i)) in Hcount by done.
      rewrite Hzero in Hold. injection Hold as Hold.
      change (u32_inc 0) with 1 in *. f_equal. lia.
    + rewrite list_lookup_insert_ne by done.
      rewrite (bool_decide_eq_false_2 (i = f)) in Hcount by done.
      destruct (decide (N.to_nat (pte_pfn e) = f)) as [Hold_f|Hother].
      * rewrite (bool_decide_eq_true_2 (N.to_nat (pte_pfn e) = f)) in Hcount by done.
        subst f. rewrite list_lookup_insert_eq by done.
        rewrite Hc in Hold. injection Hold as ->.
        rewrite N2Nat.id in *.
        set (n' := count_mappings (pte_pfn e) (write_pte _ _ _ _ _ _ _ _)) in *.
        rewrite u32_dec_pred; [f_equal; lia | lia |].
        by eapply counts_in_range_lookup.
      * rewrite (bool_decide_eq_false_2 (N.to_nat (pte_pfn e) = f)) in Hcount by done.
        rewrite list_lookup_insert_ne by done. rewrite Hold.
        do 2 f_equal. lia.
  - apply counts_in_range_insert; [|apply u32_inc_le].
    apply counts_in_range_insert; [done | apply u32_dec_le].
Qed.

(** X13: [free_page] of a valid entry keeps the reference counts
    right: when they are right before, every counter holds an
    [unsigned int] and the frame of the entry has a counter, the call
    returns and both still hold afterwards. *)
Theorem free_page_keeps_refcount s vpn e :
  refcount_ok s = true →
  counts_in_range (mapcounts s) = true →
  read_pte s vpn = Some e →
  pte_valid e = true →
  (N.to_nat (pte_pfn e) < length (mapcounts s))%nat →
  ∃ s', free_page s vpn = Some s' ∧
        refcount_ok s' = true ∧
        counts_in_range (mapcounts s') = true.
Proof.
  intros Hinv Hrange Hread Hv Hpfn.
  pose proof Hread as (p & d & Hp & Hd & He)%read_pte_Some.
  destruct (lookup_lt_is_Some_2 _ _ Hpfn) as [c Hc].
  pose proof (count_mappings_pos s vpn e Hread Hv) as Hpos.
  eexists. split; [by eapply free_page_Some|]. simpl. split.
  - apply refcount_ok_true. intros f Hf. simpl.
    pose proof (count_mappings_replace (N.of_nat f) s p vpn d e (mk_pte false 0 0 0)
                  (<[N.to_nat (pte_pfn e) := u32_dec c]> (mapcounts s))
                  (map (λ x, if tlb_has vpn x then tlb_cleared else x) (tlb s))
                  Hp Hd He) as Hcount.
    rewrite !mapping_index in Hcount. simpl in Hcount. rewrite Hv in Hcount.
    simpl in Hcount.
    pose proof (proj1 (refcount_ok_true s) Hinv f Hf) as Hold.
    destruct (decide (N.to_nat (pte_pfn e) = f)) as [Hold_f|Hother].
    + rewrite (bool_decide_eq_true_2 (N.to_nat (pte_pfn e) = f)) in Hcount by done.
      subst f. rewrite list_lookup_insert_eq by done.
      rewrite Hc in Hold. injection Hold as ->.
      rewrite N2Nat.id in *.
      set (n' := count_mappings (pte_pfn e) (write_pte _ _ _ _ _ _ _ _)) in *.
      rewrite u32_dec_pred; [f_equal; lia | lia |].
      by eapply counts_in_range_lookup.
    + rewrite (bool_decide_eq_false_2 (N.to_nat (pte_pfn e) = f)) in Hcount by done.
      rewrite list_lookup_insert_ne by done. rewrite Hold.
      do 2 f_equal. lia.
  - apply counts_in_range_insert; [done | apply u32_dec_le].
Qed.

Lemma count_directory_no_valid f d :
  no_valid_entry d = true → count_directory f d = 0%nat.
Proof.
  unfold no_valid_entry. rewrite List.forallb_forall. intros H.
  rewrite count_directory_sum. apply sum_list_with_zero.
  intros e He%list_elem_of_In%H. unfold mapping, maps_frame.
  by destruct (pte_valid e).
Qed.

(** X14: [alloc_page] for a vpn whose entry is not valid keeps the
    reference counts right, whether a frame is free or not, when a new
    directory comes with no valid entry: if they are right before and
    every counter holds an [unsigned int], the call returns and both
    still hold afterwards. *)
Theorem alloc_page_keeps_refcount fresh s vpn rw p slot e0 :
  refcount_ok s = true →
  counts_in_range (mapcounts s) = true →
  heap s !! ptbr s = Some p →
  outer_ptes (proc_pagetable p) !! outer_pte_index vpn = Some slot →
  default fresh slot !! pte_index vpn = Some e0 →
  pte_valid e0 = false →
  (slot = None → no_valid_entry fresh = true) →
  ∃ s' r, alloc_page fresh s vpn rw = Some (s', r) ∧
          refcount_ok s' = true ∧
          counts_in_range (mapcounts s') = true.
Proof.
  intros Hinv Hrange Hp Hslot He0 Hv0 Hfresh.
  destruct (first_free_frame (mapcounts s)) as [i|] eqn:Hfree.
  2:{ exists s, UINT_MAX. split; [|done].
      unfold alloc_page. rewrite Hp. simpl. rewrite Hslot. simpl. by rewrite Hfree. }
  apply first_free_frame_Some in Hfree as Hlow. pose proof Hlow as (Hi & Hzero & _).
  eexists _, _. split; [eapply alloc_page_Some; by eauto|]. simpl. split.
  - apply refcount_ok_true. intros f Hf. simpl.
    pose proof (count_mappings_write_pte (N.of_nat f) s p (outer_pte_index vpn) slot
                  (default fresh slot) (pte_index vpn) (mk_pte true rw (N.of_nat i) rw)
                  (<[i := 1]> (mapcounts s)) (tlb s) Hp Hslot) as Hcount.
    pose proof (count_directory_insert (N.of_nat f) (default fresh slot) (pte_index vpn)
                  e0 (mk_pte true rw (N.of_nat i) rw) He0) as Hdir.
    rewrite !mapping_index in Hdir. simpl in Hdir. rewrite Hv0, Nat2N.id in Hdir.
    simpl in Hdir.
    assert (from_option (count_directory (N.of_nat f)) 0%nat slot
            = count_directory (N.of_nat f) (default fresh slot)) as Hsame.
    { destruct slot as [d|]; [done|]. simpl.
      by rewrite count_directory_no_valid by by apply Hfresh. }
    pose proof (proj1 (refcount_ok_true s) Hinv f Hf) as Hold.
    set (n' := count_mappings (N.of_nat f) (write_pte _ _ _ _ _ _ _ _)) in *.
    destruct (decide (i = f)) as [->|Hne].
    + rewrite list_lookup_insert_eq by by eapply lookup_lt_Some.
      rewrite (bool_decide_eq_true_2 (f = f)) in Hdir by done.
      rewrite Hzero in Hold. injection Hold as Hold. f_equal. lia.
    + rewrite list_lookup_insert_ne by done.
      rewrite (bool_decide_eq_false_2 (i = f)) in Hdir by done.
      rewrite Hold. do 2 f_equal. lia.
  - apply counts_in_range_insert; [done | by vm_compute].
Qed.

Lemma mapping_cow_downgrade f e : mapping f (cow_downgrade e) = mapping f e.
Proof.
  unfold mapping, maps_frame. by rewrite cow_downgrade_valid, cow_downgrade_pfn.
Qed.

Lemma count_directory_cow_downgrade f d :
  count_directory f (map cow_downgrade d) = count_directory f d.
Proof.
  rewrite !count_directory_sum. induction d as [|e d IH]; simpl; [done|].
  by rewrite mapping_cow_downgrade, IH.
Qed.

Lemma count_pagetable_cow_downgrade f outer :
  count_pagetable f (mk_pagetable (map (option_map (map cow_downgrade)) outer))
  = count_pagetable f (mk_pagetable outer).
Proof.
  unfold count_pagetable. simpl. induction outer as [|o outer IH]; simpl; [done|].
  rewrite IH. f_equal. destruct o as [d|]; simpl; [|done].
  apply count_directory_cow_downgrade.
Qed.

Lemma imap_child_slot_None junk outer :
  (∀ i, junk i = None) →
  imap (child_slot junk) outer = map (option_map (map cow_downgrade)) outer.
Proof.
  intros Hjunk. apply list_eq. intros i.
  change (map ?f ?l) with (f <$> l).
  rewrite list_lookup_imap, list_lookup_fmap.
  destruct (outer !! i) as [[d|]|]; simpl; [done | by rewrite Hjunk | done].
Qed.

(** X15: a fork keeps the reference counts right: when they are right
    before, the block of the child held no directory pointer, and for
    every frame the mappings there are and those of the parent together
    fit in an [unsigned int], the fork returns and every frame below
    [NR_PAGEFRAMES] has again as its count the number of valid entries,
    of all processes, that map it. *)
Theorem switch_process_fork_keeps_refcount junk s pid' parent :
  ptbr s = current s →
  heap s !! current s = Some parent →
  pid parent ≠ pid' →
  (∀ a, a ∈ processes s → ∃ p, heap s !! a = Some p ∧ pid p ≠ pid') →
  pagetable_ok (proc_pagetable parent) = true →
  frames_in_range (mapcounts s) (proc_pagetable parent) = true →
  (∀ i, junk i = None) →
  refcount_ok s = true →
  fork_counts_fit s (proc_pagetable parent) = true →
  ∃ s', switch_process junk s pid' = Some s' ∧
        current s' = length (heap s) ∧
        refcount_ok s' = true.
Proof.
  intros Hptbr Hparent Hpid Hqueue Hpt Hrange Hjunk Hinv Hfit.
  destruct (switch_process_fork_Some junk s pid' parent) as (mc' & Hrun & _ & Hmc);
    [done..|].
  eexists. split; [exact Hrun|]. split; [done|].
  apply refcount_ok_true. intros f Hf. simpl.
  rewrite (Hmc f _ (proj1 (refcount_ok_true s) Hinv f Hf)).
  assert (N.of_nat (count_mappings (N.of_nat f) s
                    + count_pagetable (N.of_nat f) (proc_pagetable parent)) ≤ UINT_MAX)
    as Hle.
  { unfold fork_counts_fit in Hfit. rewrite List.forallb_forall in Hfit.
    apply N.leb_le, Hfit, in_seq. lia. }
  rewrite u32_add_small by lia. f_equal.
  unfold count_mappings at 2. simpl. rewrite sum_list_with_app. simpl.
  pose proof (sum_list_with_insert (λ q, count_pagetable (N.of_nat f) (proc_pagetable q))
                (heap s) (current s) parent
                (mk_process (pid parent)
                   (mk_pagetable (map (option_map (map cow_downgrade))
                                      (outer_ptes (proc_pagetable parent))))) Hparent)
    as Hheap.
  simpl in Hheap.
  rewrite imap_child_slot_None by done.
  rewrite count_pagetable_cow_downgrade in Hheap |- *.
  unfold count_mappings.
  assert (count_pagetable (N.of_nat f) (mk_pagetable (outer_ptes (proc_pagetable parent)))
          = count_pagetable (N.of_nat f) (proc_pagetable parent)) as Heta by done.
  rewrite Heta in Hheap |- *. lia.
Qed.

(** ** Copy-on-write, from the fork to the write *)

Lemma handle_page_fault_duplicates s vpn p d e c i :
  heap s !! ptbr s = Some p →
  outer_ptes (proc_pagetable p) !! outer_pte_index vpn = Some (Some d) →
  d !! pte_index vpn = Some e →
  pte_valid e = true → pte_rw e = ACCESS_READ →
  pte_private e = ACCESS_READ + ACCESS_WRITE →
  mapcounts s !! N.to_nat (pte_pfn e) = Some c → c ≠ 1 →
  lowest_free (mapcounts s) i → i ≠ N.to_nat (pte_pfn e) →
  handle_page_fault s vpn ACCESS_WRITE =
    Some (write_pte s p (outer_pte_index vpn) d (pte_index vpn)
            (mk_pte true (ACCESS_READ + ACCESS_WRITE) (N.of_nat i)
                    (ACCESS_READ + ACCESS_WRITE))
            (<[i := 1]> (<[N.to_nat (pte_pfn e) := u32_dec c]> (mapcounts s))) (tlb s),
          true).
Proof.
  intros Hp Hd He Hv Hrw Hpriv Hc Hc1 Hlow Hne.
  pose proof Hlow as Hfree%first_free_frame_Some. destruct Hlow as (_ & Hi & _).
  destruct e as [v r f pr]. simpl in *. subst v r pr.
  unfold handle_page_fault. rewrite Hp. simpl. rewrite Hd. simpl.
  rewrite He. simpl. rewrite Hc. simpl.
  rewrite (proj2 (N.eqb_neq _ _) Hc1), Hfree.
  rewrite list_lookup_insert_ne, Hi by done. simpl. reflexivity.
Qed.

Lemma count_pagetable_pos p vpn e :
  pte_of p vpn = Some e → pte_valid e = true →
  (1 ≤ count_pagetable (pte_pfn e) (proc_pagetable p))%nat.
Proof.
  intros (d & Hd & He)%pte_of_Some Hv. unfold count_pagetable.
  pose proof (sum_list_with_in (Some d)
                (from_option (count_directory (pte_pfn e)) 0%nat)
                (outer_ptes (proc_pagetable p))) as Houter.
  pose proof (sum_list_with_in e (mapping (pte_pfn e)) d) as Hdir.
  rewrite <- count_directory_sum in Hdir. simpl in Houter.
  assert (mapping (pte_pfn e) e = 1%nat) as Hone.
  { unfold mapping, maps_frame. by rewrite Hv, N.eqb_refl. }
  rewrite Hone in Hdir.
  assert (Some d ∈ outer_ptes (proc_pagetable p)) as Hin1
    by (apply list_elem_of_lookup; by eexists).
  assert (e ∈ d) as Hin2 by (apply list_elem_of_lookup; by eexists).
  specialize (Houter Hin1). specialize (Hdir Hin2). lia.
Qed.

Lemma count_pagetable_le_mappings f s a p :
  heap s !! a = Some p →
  (count_pagetable f (proc_pagetable p) ≤ count_mappings f s)%nat.
Proof.
  intros Hp. unfold count_mappings.
  apply (sum_list_with_in p (λ q, count_pagetable f (proc_pagetable q))).
  apply list_elem_of_lookup. by exists a.
Qed.

(** X16: copy-on-write from the fork to the write.  In a state with
    right reference counts, after the fork of a process that had a valid
    read-write page on a frame below [NR_PAGEFRAMES], a write fault of
    the child on that page succeeds when a frame was free: the child's
    entry is read-write on the lowest-numbered free frame, which is not
    the frame of the parent, and the parent's entry is read-only, with
    its read-write ceiling, on the frame it had. *)
Theorem fork_then_write_fault junk s pid' parent vpn e :
  ptbr s = current s →
  heap s !! current s = Some parent →
  pid parent ≠ pid' →
  (∀ a, a ∈ processes s → ∃ p, heap s !! a = Some p ∧ pid p ≠ pid') →
  pagetable_ok (proc_pagetable parent) = true →
  frames_in_range (mapcounts s) (proc_pagetable parent) = true →
  (∀ i, junk i = None) →
  refcount_ok s = true →
  fork_counts_fit s (proc_pagetable parent) = true →
  pte_of parent vpn = Some e →
  pte_valid e = true →
  pte_rw e = ACCESS_READ + ACCESS_WRITE →
  pte_private e = ACCESS_READ + ACCESS_WRITE →
  (N.to_nat (pte_pfn e) < NR_PAGEFRAMES)%nat →
  some_free (mapcounts s) →
  ∃ s1 s2 i parent',
    switch_process junk s pid' = Some s1 ∧
    handle_page_fault s1 vpn ACCESS_WRITE = Some (s2, true) ∧
    lowest_free (mapcounts s1) i ∧
    read_pte s2 vpn =
      Some (mk_pte true (ACCESS_READ + ACCESS_WRITE) (N.of_nat i)
                   (ACCESS_READ + ACCESS_WRITE)) ∧
    i ≠ N.to_nat (pte_pfn e) ∧
    heap s2 !! current s = Some parent' ∧
    pte_of parent' vpn =
      Some (mk_pte true ACCESS_READ (pte_pfn e) (ACCESS_READ + ACCESS_WRITE)).
Proof.
  intros Hptbr Hparent Hpid Hqueue Hpt Hrange Hjunk Hinv Hfit He Hv Hrw Hpriv Hold
         (i0 & Hi0 & Hzero0).
  destruct (switch_process_fork_Some junk s pid' parent) as (mc' & Hrun & Hlen & Hmc);
    [done..|].
  pose proof (lookup_lt_Some _ _ _ Hparent) as Hcur.
  pose proof He as (d0 & Hd0 & He0)%pte_of_Some.
  set (old := N.to_nat (pte_pfn e)) in *.
  assert (cow_downgrade e
          = mk_pte true ACCESS_READ (pte_pfn e) (ACCESS_READ + ACCESS_WRITE)) as Hcow.
  { unfold cow_downgrade. rewrite Hrw, N.eqb_refl. by rewrite Hv, Hpriv. }
  (* the count of the old frame after the fork *)
  pose proof (proj1 (refcount_ok_true s) Hinv) as Hcounts.
  pose proof (count_pagetable_pos parent vpn e He Hv) as Hk.
  pose proof (count_pagetable_le_mappings (pte_pfn e) s _ _ Hparent) as Hle.
  assert (N.of_nat (count_mappings (pte_pfn e) s
                    + count_pagetable (pte_pfn e) (proc_pagetable parent)) ≤ UINT_MAX)
    as Hfit_old.
  { unfold fork_counts_fit in Hfit. rewrite List.forallb_forall in Hfit.
    pose proof (Hfit old) as H. unfold old in H. rewrite N2Nat.id in H.
    apply N.leb_le, H, in_seq. unfold old in Hold. lia. }
  pose proof (Hmc old _ (Hcounts old Hold)) as Hmc_old.
  unfold old in Hmc_old at 2 3. rewrite N2Nat.id in Hmc_old.
  rewrite u32_add_small in Hmc_old by lia.
  (* a frame is still free after the fork *)
  assert (some_free mc') as (i & Hlow)%some_free_lowest.
  { exists i0. split; [done|].
    pose proof (Hcounts i0 Hi0) as H0. rewrite Hzero0 in H0. injection H0 as H0.
    pose proof (count_pagetable_le_mappings (N.of_nat i0) s _ _ Hparent) as Hle0.
    rewrite (Hmc i0 0 Hzero0).
    replace (count_pagetable (N.of_nat i0) (proc_pagetable parent)) with 0%nat by lia.
    done. }
  assert (i ≠ old) as Hne.
  { eapply lowest_free_ne; [exact Hlow | exact Hmc_old | lia]. }
  set (child := mk_process pid'
                  (mk_pagetable (imap (child_slot junk)
                                      (outer_ptes (proc_pagetable parent))))) in *.
  set (parent' := mk_process (pid parent)
                    (mk_pagetable (map (option_map (map cow_downgrade))
                                       (outer_ptes (proc_pagetable parent))))) in *.
  set (s1 := mk_state (<[current s := parent']> (heap s) ++ [child])
                      (processes s ++ [current s]) (length (heap s)) (length (heap s))
                      (map (λ _, tlb_cleared) (tlb s)) mc') in *.
  assert (heap s1 !! ptbr s1 = Some child) as Hchild.
  { simpl. rewrite lookup_app_r by by rewrite length_insert.
    by rewrite length_insert, Nat.sub_diag. }
  assert (outer_ptes (proc_pagetable child) !! outer_pte_index vpn
          = Some (Some (map cow_downgrade d0))) as Hcd.
  { simpl. by rewrite list_lookup_imap, Hd0. }
  assert (map cow_downgrade d0 !! pte_index vpn = Some (cow_downgrade e)) as Hce.
  { change (map ?f ?l) with (f <$> l). by rewrite list_lookup_fmap, He0. }
  exists s1. eexists. exists i, parent'. split; [exact Hrun|]. split.
  { pose proof (handle_page_fault_duplicates s1 vpn child (map cow_downgrade d0)
                  (cow_downgrade e)
                  (N.of_nat (count_mappings (pte_pfn e) s)
                   + N.of_nat (count_pagetable (pte_pfn e) (proc_pagetable parent)))
                  i Hchild Hcd Hce) as Hfault.
    rewrite Hcow in Hfault.
    apply (Hfault eq_refl eq_refl eq_refl Hmc_old); [lia | done | done]. }
  split; [done|]. split.
  { apply write_pte_read_any; [done | by rewrite Hcd |].
    rewrite Hce. by eexists. }
  split; [done|]. split.
  - unfold write_pte. simpl.
    rewrite list_lookup_insert_ne by lia.
    rewrite lookup_app_l by by rewrite length_insert.
    by apply list_lookup_insert_eq.
  - apply pte_of_Some. exists (map cow_downgrade d0). split; [|by rewrite <- Hcow].
    simpl. change (map ?f ?l) with (f <$> l) at 1.
    by rewrite list_lookup_fmap, Hd0.
Qed.

(** X17: every call of an entry point keeps the scheduler state as the
    code needs it: [ptbr] points to the page table of [current],
    [current] is not in the ready queue, no process is queued twice,
    every queued process is allocated, and no two of them have the same
    pid. *)
Theorem calls_keep_sched_ok s s' : sched_ok s → step s s' → sched_ok s'.
Proof.
  intros Hok [vpn rw pfn -> | fresh vpn rw r H | vpn H | vpn rw r H | junk pid' H].
  - by apply insert_tlb_sched_ok.
  - by eapply alloc_page_sched_ok.
  - by eapply free_page_sched_ok.
  - by eapply handle_page_fault_sched_ok.
  - by eapply switch_process_sched_ok.
Qed.

End VM.

(** ** Where the code goes wrong *)

(** C1 fails on the code.  From the boot state, [alloc_page(0, 3)] maps
    page 0 to frame 0 and the counts are right; a second
    [alloc_page(0, 3)] moves page 0 to frame 1 and leaves the count of
    frame 0 at 1, while no valid entry of any process maps frame 0. *)
Theorem alloc_page_twice_breaks_refcount :
  ∃ s1 s2,
    refcount_ok 3 boot_state = true ∧
    alloc_page 2 3 zero_directory boot_state 0 3 = Some (s1, 0) ∧
    refcount_ok 3 s1 = true ∧
    alloc_page 2 3 zero_directory s1 0 3 = Some (s2, 1) ∧
    mapcounts s2 !! 0%nat = Some 1 ∧
    count_mappings 0 s2 = 0%nat ∧
    refcount_ok 3 s2 = false.
Proof. eexists _, _. repeat split; vm_compute; reflexivity. Qed.

(** C7 fails on the code when the directory is there and the entry is
    not valid.  From the boot state, after [alloc_page(0, 3)],
    [alloc_page(1, 3)] and [free_page(1)], the entry of page 1 is invalid
    with pfn 0 and frame 0 has the one mapping of page 0; a second
    [free_page(1)] takes that count to 0, so frame 0 counts as free while
    page 0 is still mapped to it. *)
Theorem free_page_of_invalid_entry_changes_mapcounts :
  ∃ s1 s2 s3 s4,
    alloc_page 2 3 zero_directory boot_state 0 3 = Some (s1, 0) ∧
    alloc_page 2 3 zero_directory s1 1 3 = Some (s2, 1) ∧
    free_page 2 s2 1 = Some s3 ∧
    read_pte 2 s3 1 = Some (mk_pte false 0 0 0) ∧
    mapcounts s3 = [1; 0; 0] ∧
    free_page 2 s3 1 = Some s4 ∧
    mapcounts s4 = [0; 0; 0] ∧
    read_pte 2 s4 0 = Some (mk_pte true 3 0 3).
Proof. eexists _, _, _, _. repeat split; vm_compute; reflexivity. Qed.

(** C6 fails on the code.  From the boot state, [switch_process(1)]
    forks: the child, with pid 1, is [current], and the parent is the
    one process of the ready queue.  The [list] member of the child has
    not been written since [malloc].  A second [switch_process(1)] finds
    no process with pid 1 in the queue, finds that [current] has that
    pid, and calls [list_del] on the links of [current] (line 282): the
    call has no defined result, where the state was to stay as it is but
    for the TLB. *)
Theorem switch_process_to_forked_current_undefined junk :
  ∃ s1, switch_process 2 junk boot_state 1 = Some s1 ∧
        current s1 = 1%nat ∧
        processes s1 = [0%nat] ∧
        pid <$> heap s1 !! current s1 = Some 1 ∧
        switch_process 2 junk s1 1 = None.
Proof. eexists. repeat split; reflexivity. Qed.

(** C9 fails on the code for write.  The TLB has one slot, not in use.
    [insert_tlb(5, ACCESS_WRITE, 7)] leaves in it a valid entry for vpn 5
    with [rw] [ACCESS_WRITE] and pfn 7; the lookup of vpn 5 for
    [ACCESS_WRITE] that follows compares the [rw] of the entry with 3
    (line 69) and misses, although the entry has the [rw] asked for. *)
Theorem insert_tlb_write_then_lookup_tlb_write_misses :
  has_room (tlb (mk_state [] [] 0 0 [tlb_cleared] [])) 5 ∧
  tlb (insert_tlb (mk_state [] [] 0 0 [tlb_cleared] []) 5 ACCESS_WRITE 7)
    = [mk_tlb true ACCESS_WRITE 5 7] ∧
  lookup_tlb (insert_tlb (mk_state [] [] 0 0 [tlb_cleared] []) 5 ACCESS_WRITE 7)
             5 ACCESS_WRITE = None.
Proof.
  split; [|split; reflexivity].
  left. exists tlb_cleared. split; [left | reflexivity].
Qed.

(** ** Instances of the statements *)

(** Insert-then-lookup for a read of vpn 5 into a TLB with one entry in
    use and one free. *)
Lemma insert_tlb_lookup_tlb_witness :
  lookup_tlb (insert_tlb (mk_state [] [] 0 0 [mk_tlb true 1 4 9; tlb_cleared] [])
                         5 ACCESS_READ 7) 5 ACCESS_READ = Some 7.
Proof.
  apply insert_tlb_lookup_tlb.
  - vm_compute. discriminate.
  - left. exists tlb_cleared. split; [right; left | reflexivity].
Defined.


(** The write fault of the sole owner of frame 0. *)
Lemma handle_page_fault_sole_owner_witness :
  ∃ s', handle_page_fault 2 3 sole_owner_state 0 ACCESS_WRITE = Some (s', true) ∧
        read_pte 2 s' 0 = Some (mk_pte true (ACCESS_READ + ACCESS_WRITE) 0 3) ∧
        mapcounts s' = mapcounts sole_owner_state ∧
        unchanged_but 2 sole_owner_state s' 0.
Proof.
  apply (handle_page_fault_sole_owner 2 3 sole_owner_state 0 (mk_pte true 1 0 3));
    reflexivity.
Defined.

(** The write fault of one of the two owners of frame 0, with frames 1
    and 2 free. *)
Lemma handle_page_fault_shared_witness :
  some_free 3 (mapcounts shared_state) ∧
  ((some_free 3 (mapcounts shared_state) →
      ∃ i s', lowest_free 3 (mapcounts shared_state) i ∧
        handle_page_fault 2 3 shared_state 0 ACCESS_WRITE = Some (s', true) ∧
        read_pte 2 s' 0 =
          Some (mk_pte true (ACCESS_READ + ACCESS_WRITE) (N.of_nat i) 3) ∧
        i ≠ 0%nat ∧
        mapcounts s' = <[i := 1]> (<[0%nat := 2 - 1]> (mapcounts shared_state)) ∧
        unchanged_but 2 shared_state s' 0) ∧
   (¬ some_free 3 (mapcounts shared_state) →
      handle_page_fault 2 3 shared_state 0 ACCESS_WRITE = Some (shared_state, false))).
Proof.
  split.
  - exists 1%nat. split; [lia | reflexivity].
  - apply (handle_page_fault_shared 2 3 shared_state 0 (mk_pte true 1 0 3) 2);
      [reflexivity | reflexivity | reflexivity | reflexivity | reflexivity | lia |].
    vm_compute. discriminate.
Defined.

(** The first allocation from the boot state. *)
Lemma alloc_page_lowest_free_witness :
  some_free 3 (mapcounts boot_state) ∧
  ((some_free 3 (mapcounts boot_state) →
      ∃ i s', lowest_free 3 (mapcounts boot_state) i ∧
        alloc_page 2 3 zero_directory boot_state 0 3 = Some (s', N.of_nat i) ∧
        read_pte 2 s' 0 = Some (mk_pte true 3 (N.of_nat i) 3) ∧
        mapcounts s' = <[i := 1]> (mapcounts boot_state) ∧
        mapcounts s' !! i = Some 1) ∧
   (¬ some_free 3 (mapcounts boot_state) →
      alloc_page 2 3 zero_directory boot_state 0 3 = Some (boot_state, UINT_MAX))).
Proof.
  split.
  - exists 0%nat. split; [lia | reflexivity].
  - apply (alloc_page_lowest_free 2 3 zero_directory boot_state 0 3
             (mk_process 0 (mk_pagetable [None; None])) None);
      [reflexivity | reflexivity |].
    exists (mk_pte false 0 0 0). reflexivity.
Defined.

(** An allocation for page 0, which is mapped to frame 0 already. *)
Lemma alloc_page_over_valid_entry_witness :
  ∃ i s', lowest_free 3 (mapcounts sole_owner_state) i ∧
    alloc_page 2 3 zero_directory sole_owner_state 0 3 = Some (s', N.of_nat i) ∧
    read_pte 2 s' 0 = Some (mk_pte true 3 (N.of_nat i) 3) ∧
    mapcounts s' !! i = Some 1 ∧
    i ≠ 0%nat ∧
    mapcounts s' !! 0%nat = Some 1 ∧
    unchanged_but 2 sole_owner_state s' 0.
Proof.
  apply (alloc_page_over_valid_entry 2 3 zero_directory sole_owner_state 0 3
           (mk_pte true 1 0 3) 1);
    [reflexivity | reflexivity | reflexivity | lia |].
  exists 1%nat. split; [lia | reflexivity].
Defined.

(** The fork of a process with pid 1 from the process with pid 0, which
    has a read-write page on frame 0. *)
Lemma switch_process_fork_witness :
  ∃ s' parent' child,
    switch_process 2 (λ _, None) writable_state 1 = Some s' ∧
    heap s' !! current writable_state = Some parent' ∧ pid parent' = 0 ∧
    current s' = length (heap writable_state) ∧ ptbr s' = current s' ∧
    heap s' !! current s' = Some child ∧ pid child = 1 ∧
    processes s' = processes writable_state ++ [current writable_state] ∧
    (∀ vpn e,
       pte_of 2 (mk_process 0 (mk_pagetable [Some [mk_pte true 3 0 3; mk_pte false 0 0 0]; None]))
              vpn = Some e →
       pte_of 2 parent' vpn = Some (cow_downgrade e) ∧
       pte_of 2 child vpn = pte_of 2 parent' vpn) ∧
    (∀ e, pte_rw e = ACCESS_READ + ACCESS_WRITE →
       cow_downgrade e = mk_pte (pte_valid e) ACCESS_READ (pte_pfn e) (pte_private e)) ∧
    (∀ e, pte_rw e ≠ ACCESS_READ + ACCESS_WRITE → cow_downgrade e = e) ∧
    (∀ f c, mapcounts writable_state !! f = Some c →
       mapcounts s' !! f =
         Some (u32_add c (count_pagetable (N.of_nat f)
                 (mk_pagetable [Some [mk_pte true 3 0 3; mk_pte false 0 0 0]; None])))) ∧
    (∀ f c, mapcounts writable_state !! f = Some c →
       c + N.of_nat (count_pagetable (N.of_nat f)
             (mk_pagetable [Some [mk_pte true 3 0 3; mk_pte false 0 0 0]; None])) ≤ UINT_MAX →
       mapcounts s' !! f =
         Some (c + N.of_nat (count_pagetable (N.of_nat f)
                 (mk_pagetable [Some [mk_pte true 3 0 3; mk_pte false 0 0 0]; None])))) ∧
    length (mapcounts s') = length (mapcounts writable_state) ∧
    ((∀ i : nat, (λ _ : nat, @None (list pte)) i = None) →
       proc_pagetable child = proc_pagetable parent') ∧
    (∀ a, a ≠ current writable_state → a ≠ current s' →
       heap s' !! a = heap writable_state !! a).
Proof.
  apply (switch_process_fork 2 (λ _, None) writable_state 1
           (mk_process 0 (mk_pagetable [Some [mk_pte true 3 0 3; mk_pte false 0 0 0]; None]))).
  - reflexivity.
  - reflexivity.
  - discriminate.
  - intros a Ha. apply elem_of_nil in Ha. destruct Ha.
  - reflexivity.
  - reflexivity.
Defined.

(** ** Instances of the further statements *)

(** An insertion for vpn 0 and the lookup of vpn 1. *)
Lemma insert_tlb_lookup_tlb_other_witness :
  lookup_tlb (insert_tlb cached_state 0 3 7) 1 ACCESS_READ
  = lookup_tlb cached_state 1 ACCESS_READ.
Proof. apply insert_tlb_lookup_tlb_other. discriminate. Defined.

(** An insertion for vpn 0, which has an entry. *)
Lemma insert_tlb_no_duplicate_witness :
  tlb_count 0 (tlb (insert_tlb cached_state 0 3 7))
    = Nat.max 1 (tlb_count 0 (tlb cached_state)) ∧
  (∀ vpn', vpn' ≠ 0 →
     tlb_count vpn' (tlb (insert_tlb cached_state 0 3 7))
     = tlb_count vpn' (tlb cached_state)) ∧
  length (tlb (insert_tlb cached_state 0 3 7)) = length (tlb cached_state).
Proof.
  apply insert_tlb_no_duplicate.
  right. exists (mk_tlb true 1 0 0). split; [left | split; reflexivity].
Defined.

(** An insertion for vpn 5 into a TLB whose two slots hold other vpns. *)
Lemma insert_tlb_no_room_witness : insert_tlb cached_state 5 1 7 = cached_state.
Proof.
  apply insert_tlb_no_room.
  intros [(e & He & Hv) | (e & He & Hv & Hvpn)].
  - apply elem_of_cons in He as [->|He]; [discriminate Hv|].
    apply list_elem_of_singleton in He as ->. discriminate Hv.
  - apply elem_of_cons in He as [->|He]; [discriminate Hvpn|].
    apply list_elem_of_singleton in He as ->. discriminate Hvpn.
Defined.

(** [free_page(0)] where page 0 is mapped to frame 0. *)
Lemma free_page_unmaps_witness :
  ∃ s', free_page 2 cached_state 0 = Some s' ∧
        read_pte 2 s' 0 = Some (mk_pte false 0 0 0) ∧
        mapcounts s' = <[0%nat := u32_dec 1]> (mapcounts cached_state) ∧
        (0 < 1 → 1 ≤ UINT_MAX → mapcounts s' !! 0%nat = Some (1 - 1)) ∧
        same_pages_but 2 cached_state s' 0.
Proof.
  apply (free_page_unmaps 2 cached_state 0 (mk_pte true 1 0 3) 1); reflexivity.
Defined.

(** [free_page(0)] where the translation of page 0 is cached. *)
Lemma free_page_clears_tlb_witness :
  ∃ s', free_page 2 cached_state 0 = Some s' ∧
        (∀ rw, lookup_tlb s' 0 rw = None) ∧
        tlb_count 0 (tlb s') = 0%nat ∧
        (∀ vpn' rw, vpn' ≠ 0 → lookup_tlb s' vpn' rw = lookup_tlb cached_state vpn' rw).
Proof.
  apply (free_page_clears_tlb 2 cached_state 0 (mk_pte true 1 0 3) 1); reflexivity.
Defined.

(** [alloc_page(0, 3)] and [free_page(0)] from the boot state. *)
Lemma alloc_page_free_page_witness :
  ∃ i s1 s2, lowest_free 3 (mapcounts boot_state) i ∧
             alloc_page 2 3 zero_directory boot_state 0 3 = Some (s1, N.of_nat i) ∧
             free_page 2 s1 0 = Some s2 ∧
             read_pte 2 s2 0 = Some (mk_pte false 0 0 0) ∧
             mapcounts s2 = mapcounts boot_state.
Proof.
  apply (alloc_page_free_page 2 3 zero_directory boot_state 0 3
           (mk_process 0 (mk_pagetable [None; None])) None).
  - reflexivity.
  - reflexivity.
  - exists (mk_pte false 0 0 0). reflexivity.
  - exists 0%nat. split; [lia | reflexivity].
Defined.

(** A read fault on a mapped page. *)
Lemma handle_page_fault_refuses_witness :
  handle_page_fault 2 3 sole_owner_state 0 ACCESS_READ = Some (sole_owner_state, false).
Proof.
  apply (handle_page_fault_refuses 2 3 sole_owner_state 0 ACCESS_READ (mk_pte true 1 0 3)).
  - reflexivity.
  - right. left. discriminate.
Defined.

(** The switch from process 0 to the ready process 1. *)
Lemma switch_process_to_ready_witness :
  ∃ s', switch_process 2 (λ _, None) shared_state 1 = Some s' ∧
        current s' = 1%nat ∧ ptbr s' = 1%nat ∧
        processes s' = list_del 1 (processes shared_state) ++ [current shared_state] ∧
        (1%nat ∉ processes s') ∧
        length (processes s') = length (processes shared_state) ∧
        heap s' = heap shared_state ∧ mapcounts s' = mapcounts shared_state.
Proof.
  apply (switch_process_to_ready 2 (λ _, None) shared_state 1
           (mk_process 1 (mk_pagetable [Some [mk_pte true 1 0 3; mk_pte false 0 0 0]; None]))).
  - solve_sched_ok.
  - left.
  - reflexivity.
Defined.

(** A fork from a state with a cached translation. *)
Lemma switch_process_flushes_witness :
  ∃ s', switch_process 2 (λ _, None) cached_state 7 = Some s' ∧
        tlb s' = map (λ _, tlb_cleared) (tlb cached_state) ∧
        (∀ vpn rw, lookup_tlb s' vpn rw = None) ∧
        sched_ok s'.
Proof.
  apply (switch_process_flushes 2 (λ _, None) cached_state 7
           (mk_process 0 (mk_pagetable [Some [mk_pte true 1 0 3; mk_pte false 0 0 0]; None]))).
  - solve_sched_ok.
  - reflexivity.
  - discriminate.
  - reflexivity.
  - reflexivity.
Defined.

(** The fork of a process with a read-write page. *)
Lemma switch_process_fork_read_only_witness :
  ∃ s' parent' child,
    switch_process 2 (λ _, None) writable_state 1 = Some s' ∧
    heap s' !! current writable_state = Some parent' ∧
    heap s' !! current s' = Some child ∧
    ∀ vpn e, pte_of 2 parent' vpn = Some e ∨ pte_of 2 child vpn = Some e →
             pte_rw e ≠ ACCESS_READ + ACCESS_WRITE.
Proof.
  apply (switch_process_fork_read_only 2 (λ _, None) writable_state 1
           (mk_process 0 (mk_pagetable [Some [mk_pte true 3 0 3; mk_pte false 0 0 0]; None]))).
  - reflexivity.
  - reflexivity.
  - discriminate.
  - intros a Ha. apply elem_of_nil in Ha. destruct Ha.
  - reflexivity.
  - reflexivity.
  - reflexivity.
Defined.

(** The write fault of one of two owners, with right counts. *)
Lemma handle_page_fault_keeps_refcount_witness :
  ∃ s' r, handle_page_fault 2 3 shared_state 0 ACCESS_WRITE = Some (s', r) ∧
          refcount_ok 3 s' = true ∧
          counts_in_range (mapcounts s') = true.
Proof.
  apply (handle_page_fault_keeps_refcount 2 3 shared_state 0 ACCESS_WRITE
           (mk_pte true 1 0 3)).
  - reflexivity.
  - reflexivity.
  - reflexivity.
  - simpl. lia.
Defined.

(** [free_page(0)] by one of two owners, with right counts. *)
Lemma free_page_keeps_refcount_witness :
  ∃ s', free_page 2 shared_state 0 = Some s' ∧
        refcount_ok 3 s' = true ∧
        counts_in_range (mapcounts s') = true.
Proof.
  apply (free_page_keeps_refcount 2 3 shared_state 0 (mk_pte true 1 0 3)).
  - reflexivity.
  - reflexivity.
  - reflexivity.
  - reflexivity.
  - simpl. lia.
Defined.

(** The first allocation from the boot state, into a new directory. *)
Lemma alloc_page_keeps_refcount_witness :
  ∃ s' r, alloc_page 2 3 zero_directory boot_state 0 3 = Some (s', r) ∧
          refcount_ok 3 s' = true ∧
          counts_in_range (mapcounts s') = true.
Proof.
  apply (alloc_page_keeps_refcount 2 3 zero_directory boot_state 0 3
           (mk_process 0 (mk_pagetable [None; None])) None (mk_pte false 0 0 0)).
  - reflexivity.
  - reflexivity.
  - reflexivity.
  - reflexivity.
  - reflexivity.
  - reflexivity.
  - reflexivity.
Defined.

(** The fork of a process with one mapped page, with right counts. *)
Lemma switch_process_fork_keeps_refcount_witness :
  ∃ s', switch_process 2 (λ _, None) writable_state 1 = Some s' ∧
        current s' = length (heap writable_state) ∧
        refcount_ok 3 s' = true.
Proof.
  apply (switch_process_fork_keeps_refcount 2 3 (λ _, None) writable_state 1
           (mk_process 0 (mk_pagetable [Some [mk_pte true 3 0 3; mk_pte false 0 0 0]; None]))).
  - reflexivity.
  - reflexivity.
  - discriminate.
  - intros a Ha. apply elem_of_nil in Ha. destruct Ha.
  - reflexivity.
  - reflexivity.
  - reflexivity.
  - reflexivity.
  - reflexivity.
Defined.

(** The fork of a process with a read-write page on frame 0, and the
    write of the child to that page. *)
Lemma fork_then_write_fault_witness :
  ∃ s1 s2 i parent',
    switch_process 2 (λ _, None) writable_state 1 = Some s1 ∧
    handle_page_fault 2 3 s1 0 ACCESS_WRITE = Some (s2, true) ∧
    lowest_free 3 (mapcounts s1) i ∧
    read_pte 2 s2 0 =
      Some (mk_pte true (ACCESS_READ + ACCESS_WRITE) (N.of_nat i)
                   (ACCESS_READ + ACCESS_WRITE)) ∧
    i ≠ 0%nat ∧
    heap s2 !! current writable_state = Some parent' ∧
    pte_of 2 parent' 0 =
      Some (mk_pte true ACCESS_READ 0 (ACCESS_READ + ACCESS_WRITE)).
Proof.
  apply (fork_then_write_fault 2 3 (λ _, None) writable_state 1
           (mk_process 0 (mk_pagetable [Some [mk_pte true 3 0 3; mk_pte false 0 0 0]; None]))
           0 (mk_pte true 3 0 3)).
  - reflexivity.
  - reflexivity.
  - discriminate.
  - intros a Ha. apply elem_of_nil in Ha. destruct Ha.
  - reflexivity.
  - reflexivity.
  - reflexivity.
  - reflexivity.
  - reflexivity.
  - reflexivity.
  - reflexivity.
  - reflexivity.
  - reflexivity.
  - simpl. lia.
  - exists 1%nat. split; [lia | reflexivity].
Defined.

(** A call of [insert_tlb] from the boot state. *)
Lemma calls_keep_sched_ok_witness : sched_ok (insert_tlb boot_state 0 1 0).
Proof.
  apply (calls_keep_sched_ok 2 3 boot_state).
  - solve_sched_ok.
  - by eapply step_insert_tlb.
Defined.
